(** * DynaPhoPy: the phonopy interface and the QHA extraction script

    A shallow embedding of [dynaphopy/interface/phonopy_link.py] and of
    [scripts/qha_extract.py].  Python floats are binary64 primitive floats,
    numpy arrays are nested rows, Python objects live in a store and are
    passed by reference, and the phonopy library is an interface whose
    operations are left uninterpreted.  Modelled are the two container
    classes, the two loaders, [get_phonon], [obtain_phonopy_dos], the
    arrangement of eigenvectors, [get_commensurate_points],
    [get_equivalent_q_points_by_symmetry],
    [get_renormalized_force_constants] and the script. *)

From Stdlib Require Import Floats ZArith Lia Sorted.
From stdpp Require Import base list strings pretty sorting.

Open Scope string_scope.
Open Scope list_scope.
Set Warnings "-register-all,-inexact-float".

(** ** numpy arrays *)

Module Np.

(** An array of any rank: an item, or a sequence of sub-arrays along the
    first axis. *)
Inductive ndarray (A : Type) : Type :=
| Item (a : A)
| Rows (rs : list (ndarray A)).
Arguments Item {A} a.
Arguments Rows {A} rs.

(** The items in C (row-major) order: the last axis runs fastest. *)
Fixpoint ravel {A} (x : ndarray A) : list A :=
  match x with
  | Item a => [a]
  | Rows rs => flat_map ravel rs
  end.

(** A two-dimensional array is a list of rows. *)
Abbreviation matrix A := (list (list A)).

(** [rows_of n m d]: fill an [n] by [m] array from [d], row after row. *)
Fixpoint rows_of {A} (n m : nat) (d : list A) : matrix A :=
  match n with
  | O => []
  | S n' => take m d :: rows_of n' m (drop m d)
  end.

(** [x.reshape(n, m, order='C')]: the items are read in C order and
    written in C order; numpy raises ValueError ([None] here) when the
    array does not hold [n * m] items. *)
Definition reshape {A} (x : ndarray A) (n m : nat) : option (matrix A) :=
  let d := ravel x in
  if (length d =? n * m)%nat then Some (rows_of n m d) else None.

(** [M.T] of a two-dimensional array with [c] columns. *)
Fixpoint T {A} (c : nat) (M : matrix A) : matrix A :=
  match M with
  | [] => replicate c []
  | r :: M' => zip_with cons r (T c M')
  end.

(** [M[i, j]] *)
Definition item2 {A} (M : matrix A) (i j : nat) : option A :=
  M !! i ≫= (.!! j).

(** [np.identity(n)] *)
Definition identity (n : nat) : matrix float :=
  map (fun i => map (fun j => if (i =? j)%nat then 1%float else 0%float) (seq 0 n))
      (seq 0 n).

(** [a[index]] with an integer index array: fancy indexing along the
    first axis.  An index out of range raises IndexError ([None]). *)
Definition take_along {A} (a : list A) (index : list nat) : option (list A) :=
  mapM (fun i => a !! i) index.

End Np.
Import Np.


(** ** Python values *)

(** Complex items of the eigenvector arrays. *)
Record complex : Type := Complex { re : float; im : float }.

(** A force-constant tensor: a real array indexed (atom, atom, dim, dim). *)
Abbreviation Tensor := (ndarray float).

(** [phonopy.structure.atoms.Atoms(symbols=, scaled_positions=, cell=)] *)
Record PhonopyAtoms : Type := {
  symbols : list string;
  scaled_positions : matrix float;
  cell : matrix float
}.

(** The exceptions of the modelled code: numpy's ValueError, IndexError and
    LinAlgError, Python's ZeroDivisionError, and AttributeError for a method
    called on an object of another class. *)
Inductive Exception : Type :=
| ValueError
| IndexError
| LinAlgError
| ZeroDivisionError
| AttributeError.

(** How a call ends: it returns, it raises one of the exceptions above, or
    it raises the SystemExit of [exit()].  SystemExit is kept apart: it is
    not an [Exception] in Python either, no [except] clause of the
    repository catches it, and uncaught it ends the process. *)
Inductive Outcome (A : Type) : Type :=
| Returned (a : A)
| Raised (e : Exception)
| Exited.
Arguments Returned {A} a.
Arguments Raised {A} e.
Arguments Exited {A}.

(** The value of a call that returned. *)
Definition returned_value {A} (o : Outcome A) : option A :=
  match o with
  | Returned a => Some a
  | _ => None
  end.

(** ** The phonopy library

    Everything imported from phonopy is uninterpreted: its types, its
    constant [VaspToTHz] and the methods this code calls.  A method that
    changes the object it is called on returns the changed object, except
    [set_tensor_symmetry_PJ], which works on an array the caller still
    holds and is therefore modelled on the store (see below). *)

Class PhonopyLib : Type := {
  Dataset : Type;                 (* what parse_FORCE_SETS returns *)
  NacParams : Type;               (* what parse_BORN returns *)
  Symmetry : Type;                (* phonopy.structure.symmetry.Symmetry *)
  Phonopy : Type;                 (* phonopy.api_phonopy.Phonopy *)
  VaspToTHz : float;              (* phonopy.units.VaspToTHz *)
  parse_FORCE_SETS : string -> Dataset;
  parse_FORCE_CONSTANTS : string -> Tensor;
  parse_BORN : PhonopyAtoms -> bool -> NacParams;
  Phonopy_init : PhonopyAtoms -> matrix float -> matrix float -> float -> Phonopy;
  get_primitive : Phonopy -> PhonopyAtoms;
  get_supercell : Phonopy -> PhonopyAtoms;
  symmetry : Phonopy -> Symmetry;
  set_nac_params : Phonopy -> NacParams -> Phonopy;
  set_force_constants : Phonopy -> Tensor -> Phonopy;
  set_displacement_dataset : Phonopy -> Dataset -> Phonopy;
  produce_force_constants : Phonopy -> string -> Phonopy;
  get_force_constants : Phonopy -> Tensor;
  (* set_mesh(mesh, is_eigenvectors=, is_mesh_symmetry=); None: not given *)
  set_mesh : Phonopy -> list Z -> option bool -> option bool -> Phonopy;
  (* set_total_DOS(freq_min=, freq_max=, tetrahedron_method=) *)
  set_total_DOS : Phonopy -> option float -> option float -> bool -> Phonopy;
  get_total_DOS : Phonopy -> list float * list float;
  set_partial_DOS : Phonopy -> option float -> option float -> Phonopy;
  get_partial_DOS : Phonopy -> list float * matrix float;
  get_frequencies_with_eigenvectors : Phonopy -> list float -> list float * matrix complex;
  (* DynmatToForceConstants(primitive, supercell): what get_force_constants()
     returns after set_dynamical_matrices(frequencies, eigenvectors) and
     run(), and what get_commensurate_points() returns *)
  dynmat_to_fc : PhonopyAtoms -> PhonopyAtoms -> matrix float -> list (matrix complex) -> Tensor;
  commensurate_points : PhonopyAtoms -> PhonopyAtoms -> matrix float;
  (* what set_tensor_symmetry_PJ(force_constants, lattice, positions,
     symmetry) leaves in the array force_constants *)
  tensor_symmetry_PJ : Tensor -> matrix float -> matrix float -> Symmetry -> Tensor;
  Symmetry_init : PhonopyAtoms -> Symmetry;
  get_reciprocal_operations : Symmetry -> list (matrix Z)
}.

(** ** numpy's linear algebra and Python's sets

    [np.dot] and [np.linalg.inv] are uninterpreted; [None] stands for the
    exception numpy raises (ValueError for shapes that do not match,
    LinAlgError for a singular matrix).  A Python set iterates in an order
    fixed by the hashes of its elements: some rearrangement of them. *)

Class Runtime : Type := {
  np_dot : matrix float -> matrix float -> option (matrix float);
  np_dot_vec : list float -> matrix float -> option (list float);
  np_linalg_inv : matrix float -> option (matrix float);
  set_order : matrix float -> matrix float;
  set_order_perm : forall l, set_order l ≡ₚ l
}.

(** ** The object store *)

Section Store.
Context {lib : PhonopyLib}.

(** Objects are passed by reference: an address into the store. *)
Definition addr : Type := nat.

(** The part of DynaPhoPy's Structure class that this module reads and
    writes (the class itself is defined elsewhere in the package): the
    values of its getters, as fields. *)
Record Structure : Type := {
  atomic_elements : list string;
  structure_scaled_positions : matrix float;
  structure_cell : matrix float;
  primitive_matrix : matrix float;
  supercell_phonon : matrix float;
  number_of_dimensions : nat;
  number_of_primitive_atoms : nat;
  number_of_atoms : nat;
  structure_force_constants : option addr;   (* None or a ForceConstants *)
  structure_force_sets : option addr         (* None or a ForceSets *)
}.

Inductive PyObject : Type :=
| Array (a : Tensor)
    (* a numpy array *)
| ForceConstants (_force_constants : addr) (_supercell : option (matrix float))
    (* an instance of class ForceConstants: the address of its array *)
| ForceSets (_forces : Dataset) (_supercell : option (matrix float))
    (* an instance of class ForceSets *)
| StructureObj (s : Structure).

Record World : Type := {
  heap : list PyObject;
  stdout : list string     (* the lines printed so far *)
}.

Definition Py (A : Type) : Type := World -> Outcome A * World.

Definition ret {A} (a : A) : Py A := fun w => (Returned a, w).

Definition bind {A B} (c : Py A) (k : A -> Py B) : Py B :=
  fun w =>
    match c w with
    | (Returned a, w') => k a w'
    | (Raised e, w') => (Raised e, w')
    | (Exited, w') => (Exited, w')
    end.

Definition raise {A} (e : Exception) : Py A := fun w => (Raised e, w).

(** [exit()]: raises SystemExit. *)
Definition exit {A} : Py A := fun w => (Exited, w).

(** [try: c] followed by [except SystemExit: handler], as a caller may
    write it: the handler runs in the state the call has left. *)
Definition try_except_SystemExit {A} (c handler : Py A) : Py A :=
  fun w =>
    match c w with
    | (Exited, w') => handler w'
    | outcome => outcome
    end.

(** [print(s)] *)
Definition print (s : string) : Py unit :=
  fun w => (Returned tt, {| heap := heap w; stdout := stdout w ++ [s] |}).

(** A new object, at the next free address. *)
Definition new (o : PyObject) : Py addr :=
  fun w => (Returned (length (heap w)),
            {| heap := heap w ++ [o]; stdout := stdout w |}).

Definition store (a : addr) (o : PyObject) : Py unit :=
  fun w => (Returned tt, {| heap := <[a := o]> (heap w); stdout := stdout w |}).

End Store.

Declare Scope py_scope.
Delimit Scope py_scope with py.
Notation "x <- c ;; k" := (bind c (fun x => k))
  (at level 100, c at next level, right associativity) : py_scope.
Notation "c ;;; k" := (bind c (fun _ => k))
  (at level 100, right associativity) : py_scope.
Open Scope py_scope.

(** ** phonopy_link.py *)

Section PhonopyLink.
Context {lib : PhonopyLib} {rt : Runtime}.

(** [np.array(x)]: a new array holding a copy of [x]. *)
Definition np_array (x : Tensor) : Py addr := new (Array x).

(** The array at an address. *)
Definition array_at (a : addr) : Py Tensor :=
  fun w =>
    match heap w !! a with
    | Some (Array t) => (Returned t, w)
    | _ => (Raised AttributeError, w)
    end.

(** *** class ForceConstants *)

(** [ForceConstants(force_constants, supercell=None)] *)
Definition ForceConstants_init
    (force_constants : Tensor) (supercell : option (matrix float)) : Py addr :=
  a <- np_array force_constants ;;
  new (ForceConstants a supercell).

(** [get_array]: the stored array itself, not a copy. *)
Definition ForceConstants_get_array (self : addr) : Py addr :=
  fun w =>
    match heap w !! self with
    | Some (ForceConstants a _) => (Returned a, w)
    | _ => (Raised AttributeError, w)
    end.

Definition ForceConstants_get_supercell (self : addr) : Py (option (matrix float)) :=
  fun w =>
    match heap w !! self with
    | Some (ForceConstants _ s) => (Returned s, w)
    | _ => (Raised AttributeError, w)
    end.

Definition ForceConstants_set_supercell
    (self : addr) (supercell : option (matrix float)) : Py unit :=
  fun w =>
    match heap w !! self with
    | Some (ForceConstants a _) => store self (ForceConstants a supercell) w
    | _ => (Raised AttributeError, w)
    end.

(** *** class ForceSets *)

(** [ForceSets(force_sets, supercell=None)] *)
Definition ForceSets_init
    (force_sets : Dataset) (supercell : option (matrix float)) : Py addr :=
  new (ForceSets force_sets supercell).

Definition ForceSets_get_dict (self : addr) : Py Dataset :=
  fun w =>
    match heap w !! self with
    | Some (ForceSets d _) => (Returned d, w)
    | _ => (Raised AttributeError, w)
    end.

Definition ForceSets_get_supercell (self : addr) : Py (option (matrix float)) :=
  fun w =>
    match heap w !! self with
    | Some (ForceSets _ s) => (Returned s, w)
    | _ => (Raised AttributeError, w)
    end.

Definition ForceSets_set_supercell
    (self : addr) (supercell : option (matrix float)) : Py unit :=
  fun w =>
    match heap w !! self with
    | Some (ForceSets d _) => store self (ForceSets d supercell) w
    | _ => (Raised AttributeError, w)
    end.

(** *** Loading force data from files *)

Definition get_force_sets_from_file
    (file_name : string) (fs_supercell : option (matrix float)) : Py addr :=
  force_sets <- ForceSets_init (parse_FORCE_SETS file_name) None ;;
  (match fs_supercell with
   | Some s => ForceSets_set_supercell force_sets (Some s)
   | None =>
       print "No force sets supercell defined, set to identity" ;;;
       ForceSets_set_supercell force_sets (Some (identity 3))
   end) ;;;
  ret force_sets.

(** The copy that the inner [np.array] makes is handed to the constructor
    and not kept: it is passed as a value. *)
Definition get_force_constants_from_file
    (file_name : string) (fc_supercell : option (matrix float)) : Py addr :=
  force_constants <- ForceConstants_init (parse_FORCE_CONSTANTS file_name) None ;;
  (match fc_supercell with
   | Some s => ForceConstants_set_supercell force_constants (Some s)
   | None =>
       print "No force sets supercell defined, set to identity" ;;;
       ForceConstants_set_supercell force_constants (Some (identity 3))
   end) ;;;
  ret force_constants.

(** *** get_phonon *)

Definition structure_at (a : addr) : Py Structure :=
  fun w =>
    match heap w !! a with
    | Some (StructureObj s) => (Returned s, w)
    | _ => (Raised AttributeError, w)
    end.

(** [structure.set_force_constants(fc)] *)
Definition Structure_set_force_constants (self : addr) (fc : addr) : Py unit :=
  s <- structure_at self ;;
  store self (StructureObj
    {| atomic_elements := atomic_elements s;
       structure_scaled_positions := structure_scaled_positions s;
       structure_cell := structure_cell s;
       primitive_matrix := primitive_matrix s;
       supercell_phonon := supercell_phonon s;
       number_of_dimensions := number_of_dimensions s;
       number_of_primitive_atoms := number_of_primitive_atoms s;
       number_of_atoms := number_of_atoms s;
       structure_force_constants := Some fc;
       structure_force_sets := structure_force_sets s |}).

(** [PhonopyAtoms(symbols=structure.get_atomic_elements(),
    scaled_positions=structure.get_scaled_positions(),
    cell=structure.get_cell())] *)
Definition bulk_of (s : Structure) : PhonopyAtoms :=
  {| symbols := atomic_elements s;
     scaled_positions := structure_scaled_positions s;
     cell := structure_cell s |}.

Definition get_phonon (structure : addr) (NAC setup_forces : bool)
    (custom_supercell : option (matrix float)) : Py Phonopy :=
  s <- structure_at structure ;;
  let super_cell_phonon :=
    match custom_supercell with
    | None => supercell_phonon s
    | Some c => c
    end in
  (* Preparing the bulk type object *)
  let bulk := bulk_of s in
  let phonon := Phonopy_init bulk super_cell_phonon (primitive_matrix s) 1e-5%float in
  phonon <- (if NAC then
               print "Phonopy warning: Using Non Analytical Corrections" ;;;
               let primitive := get_primitive phonon in
               let nac_params := parse_BORN primitive true in
               ret (set_nac_params phonon nac_params)
             else ret phonon) ;;
  if setup_forces then
    match structure_force_constants s with
    | Some fc =>
        a <- ForceConstants_get_array fc ;;
        t <- array_at a ;;
        ret (set_force_constants phonon t)
    | None =>
        match structure_force_sets s with
        | Some fs =>
            d <- ForceSets_get_dict fs ;;
            let phonon := set_displacement_dataset phonon d in
            let phonon := produce_force_constants phonon "svd" in
            sc <- ForceSets_get_supercell fs ;;
            fc <- ForceConstants_init (get_force_constants phonon) sc ;;
            Structure_set_force_constants structure fc ;;;
            ret phonon
        | None =>
            print "No force sets/constants available!" ;;;
            exit
        end
    end
  else ret phonon.

(** Lifting a numpy call that may raise. *)
Definition or_raise {A} (e : Exception) (o : option A) : Py A :=
  match o with
  | Some a => ret a
  | None => raise e
  end.

(** [float(n)] of a count (below 2^63). *)
Definition float_of_nat (n : nat) : float :=
  PrimFloat.of_uint63 (Uint63.of_Z (Z.of_nat n)).

(** An integer array item seen as a float in mixed arithmetic. *)
Definition float_of_Z (z : Z) : float :=
  if (z <? 0)%Z then PrimFloat.opp (PrimFloat.of_uint63 (Uint63.of_Z (- z)))
  else PrimFloat.of_uint63 (Uint63.of_Z z).

(** *** obtain_eigenvectors_and_frequencies: the arrangement by atoms and
    dimensions, [arranged_ev[i][j][k] = eigenvectors[j*D + k, i]] *)
Definition arrange_ev (number_of_dimensions number_of_primitive_atoms : nat)
    (eigenvectors : matrix complex) : option (ndarray complex) :=
  Rows <$> mapM (fun i =>
    Rows <$> mapM (fun j =>
      Rows <$> mapM (fun k =>
        Item <$> item2 eigenvectors (j * number_of_dimensions + k) i)
        (seq 0 number_of_dimensions))
      (seq 0 number_of_primitive_atoms))
    (seq 0 (number_of_primitive_atoms * number_of_dimensions)).

(** *** obtain_phonopy_dos *)

(** Lines 150 to 158: the phonon object the densities are taken from. *)
Definition dos_phonon (structure : addr) (force_constants : option addr) : Py Phonopy :=
  match force_constants with
  | None => get_phonon structure false true None
  | Some fc =>
      sc <- ForceConstants_get_supercell fc ;;
      phonon <- get_phonon structure false false sc ;;
      a <- ForceConstants_get_array fc ;;
      t <- array_at a ;;
      ret (set_force_constants phonon t)
  end.

Definition obtain_phonopy_dos (structure : addr) (mesh : list Z)
    (force_constants : option addr) (freq_min freq_max : option float)
    (projected_on_atom : Z) : Py (matrix float) :=
  phonon <- dos_phonon structure force_constants ;;
  total_dos <-
    (if (projected_on_atom <? 0)%Z then
       let phonon := set_mesh phonon mesh None None in
       let phonon := set_total_DOS phonon freq_min freq_max true in
       ret [fst (get_total_DOS phonon); snd (get_total_DOS phonon)]
     else
       let phonon := set_mesh phonon mesh (Some true) (Some false) in
       let phonon := set_partial_DOS phonon freq_min freq_max in
       if (Z.of_nat (length (snd (get_partial_DOS phonon))) <=? projected_on_atom)%Z then
         print ("No atom type " +:+ pretty projected_on_atom) ;;;
         exit
       else
         row <- or_raise IndexError
                  (snd (get_partial_DOS phonon) !! Z.to_nat projected_on_atom) ;;
         ret [fst (get_partial_DOS phonon); row]) ;;
  (* Normalize to unit cell *)
  s <- structure_at structure ;;
  if (number_of_primitive_atoms s =? 0)%nat then raise ZeroDivisionError
  else
    let ratio := (float_of_nat (number_of_atoms s)
                  / float_of_nat (number_of_primitive_atoms s))%float in
    match total_dos with
    | [frequencies; dos] => ret [frequencies; map (fun x => (x * ratio)%float) dos]
    | _ => raise IndexError
    end.

(** *** get_commensurate_points *)

Definition get_commensurate_points (structure : addr)
    (fc_supercell : option (matrix float)) : Py (matrix float) :=
  phonon <- get_phonon structure false false fc_supercell ;;
  let primitive := get_primitive phonon in
  let supercell := get_supercell phonon in
  ret (commensurate_points primitive supercell).

(** *** get_equivalent_q_points_by_symmetry *)

(** [M.T] of a two-dimensional array, its width read off its first row. *)
Definition transpose {A} (M : matrix A) : matrix A := T (length (hd [] M)) M.

(** [(v >= 0).all()] *)
Definition all_nonnegative (v : list float) : bool :=
  forallb (fun x => (0 <=? x)%float) v.

(** Equality of tuples of floats, as [==] has it. *)
Fixpoint tuple_eqb (a b : list float) : bool :=
  match a, b with
  | [], [] => true
  | x :: a', y :: b' => (x =? y)%float && tuple_eqb a' b'
  | _, _ => false
  end.

(** [{tuple(row) for row in rows}], in insertion order: a row equal to an
    element of the set is not added again. *)
Definition set_add (acc : matrix float) (row : list float) : matrix float :=
  if existsb (fun r => tuple_eqb r row) acc then acc else acc ++ [row].

Definition set_of_rows (rows : matrix float) : matrix float :=
  fold_left set_add rows [].

(** [np.vstack(rows)]: ValueError without rows, or with rows of
    different lengths. *)
Definition vstack (rows : matrix float) : Py (matrix float) :=
  match rows with
  | [] => raise ValueError
  | r :: _ =>
      if forallb (fun r' => (length r' =? length r)%nat) rows then ret rows
      else raise ValueError
  end.

(** The body of the loop over the symmetry operations. *)
Definition q_point_image (q_point : list float) (primitive_matrix : matrix float)
    (operation_matrix : matrix Z) : Py (list float) :=
  p_inv <- or_raise LinAlgError (np_linalg_inv primitive_matrix) ;;
  operation_matrix_q <- or_raise ValueError
    (np_dot p_inv (map (map float_of_Z) (transpose operation_matrix))) ;;
  operation_matrix_q <- or_raise ValueError (np_dot operation_matrix_q primitive_matrix) ;;
  or_raise ValueError (np_dot_vec q_point operation_matrix_q).

Fixpoint q_points_loop (q_point : list float) (primitive_matrix : matrix float)
    (operations : list (matrix Z)) (tot_points : matrix float) : Py (matrix float) :=
  match operations with
  | [] => ret tot_points
  | operation_matrix :: operations' =>
      q_point_test <- q_point_image q_point primitive_matrix operation_matrix ;;
      q_points_loop q_point primitive_matrix operations'
        (if all_nonnegative q_point_test then tot_points ++ [q_point_test]
         else tot_points)
  end.

Definition get_equivalent_q_points_by_symmetry
    (q_point : list float) (structure : addr) : Py (matrix float) :=
  s <- structure_at structure ;;
  let bulk := bulk_of s in
  tot_points <- q_points_loop q_point (primitive_matrix s)
                  (get_reciprocal_operations (Symmetry_init bulk)) [] ;;
  vstack (set_order (set_of_rows tot_points)).

(** *** get_renormalized_force_constants *)

(** The reconstruction context [DynmatToForceConstants(primitive,
    supercell)]: the cells it was built from and what
    [set_dynamical_matrices] handed to it. *)
Record DynmatToForceConstants : Type := {
  dynmat_primitive : PhonopyAtoms;
  dynmat_supercell : PhonopyAtoms;
  dynmat_frequencies : matrix float;
  dynmat_eigenvectors : list (matrix complex)
}.

Definition DynmatToForceConstants_init (primitive supercell : PhonopyAtoms) :=
  {| dynmat_primitive := primitive; dynmat_supercell := supercell;
     dynmat_frequencies := []; dynmat_eigenvectors := [] |}.

Definition set_dynamical_matrices (dynmat2fc : DynmatToForceConstants)
    (frequencies : matrix float) (eigenvectors : list (matrix complex)) :=
  {| dynmat_primitive := dynmat_primitive dynmat2fc;
     dynmat_supercell := dynmat_supercell dynmat2fc;
     dynmat_frequencies := frequencies; dynmat_eigenvectors := eigenvectors |}.

(** [run()] followed by [get_force_constants()] *)
Definition DynmatToForceConstants_get_force_constants
    (dynmat2fc : DynmatToForceConstants) : Tensor :=
  dynmat_to_fc (dynmat_primitive dynmat2fc) (dynmat_supercell dynmat2fc)
               (dynmat_frequencies dynmat2fc) (dynmat_eigenvectors dynmat2fc).

(** [set_tensor_symmetry_PJ(force_constants, lattice, positions, symmetry)]
    returns nothing: it overwrites the array it is given. *)
Definition set_tensor_symmetry_PJ (force_constants : addr)
    (lattice positions : matrix float) (symmetry : Symmetry) : Py unit :=
  t <- array_at force_constants ;;
  store force_constants (Array (tensor_symmetry_PJ t lattice positions symmetry)).

(** Lines 267 to 277: the context after [set_dynamical_matrices]. *)
Definition reconstruction_context (renormalized_frequencies : matrix float)
    (eigenvectors : list (ndarray complex)) (structure : addr)
    (fc_supercell : option (matrix float)) : Py (Phonopy * DynmatToForceConstants) :=
  phonon <- get_phonon structure false false fc_supercell ;;
  let primitive := get_primitive phonon in
  let supercell := get_supercell phonon in
  let dynmat2fc := DynmatToForceConstants_init primitive supercell in
  s <- structure_at structure ;;
  let size := number_of_dimensions s * number_of_primitive_atoms s in
  eigenvectors <- or_raise ValueError
    (mapM (fun eigenvector => T size <$> reshape eigenvector size size) eigenvectors) ;;
  ret (phonon,
       set_dynamical_matrices dynmat2fc
         (map (map (fun f => (f / VaspToTHz)%float)) renormalized_frequencies)
         eigenvectors).

(** Lines 267 to 280: up to the construction of the instance. *)
Definition reconstructed_force_constants (renormalized_frequencies : matrix float)
    (eigenvectors : list (ndarray complex)) (structure : addr)
    (fc_supercell : option (matrix float)) : Py (Phonopy * addr) :=
  ctx <- reconstruction_context renormalized_frequencies eigenvectors
           structure fc_supercell ;;
  let '(phonon, dynmat2fc) := ctx in
  force_constants <- ForceConstants_init
                       (DynmatToForceConstants_get_force_constants dynmat2fc)
                       fc_supercell ;;
  ret (phonon, force_constants).

Definition get_renormalized_force_constants (renormalized_frequencies : matrix float)
    (eigenvectors : list (ndarray complex)) (structure : addr)
    (fc_supercell : option (matrix float)) (symmetrize : bool) : Py addr :=
  built <- reconstructed_force_constants renormalized_frequencies eigenvectors
             structure fc_supercell ;;
  let '(phonon, force_constants) := built in
  (* Symmetrize force constants using crystal symmetry *)
  (if symmetrize then
     print "Symmetrizing force constants" ;;;
     a <- ForceConstants_get_array force_constants ;;
     set_tensor_symmetry_PJ a (cell (get_supercell phonon))
       (scaled_positions (get_supercell phonon)) (symmetry phonon)
   else ret tt) ;;;
  ret force_constants.

End PhonopyLink.

(** ** qha_extract.py *)

(** One record of a thermal-properties YAML file. *)
Record ThermalRecord : Type := {
  temperature : float;
  entropy : float;
  free_energy : float;
  heat_capacity : float
}.

(** The data handed to [PhonopyQHA(volumes, electronic_energies, eos="vinet",
    temperatures=, free_energy=, cv=, entropy=, verbose=False)]. *)
Record PhonopyQHA : Type := {
  qha_volumes : list float;
  qha_electronic_energies : list float;
  qha_temperatures : list float;
  qha_free_energy : matrix float;     (* temperature by volume *)
  qha_cv : matrix float;
  qha_entropy : matrix float
}.

(** The arguments of [interp1d(x, y, kind='quadratic')] for an array [y]
    whose last axis is the interpolation axis: [interp_y !! k] is the slice
    [y[..., k]], the sample that goes with [interp_x !! k]. *)
Record interp1d (Y : Type) : Type := {
  interp_x : list float;
  interp_y : list Y
}.
Arguments interp_x {Y} _.
Arguments interp_y {Y} _.

(** [a < b] in the order numpy sorts by: numbers ascending, nan last. *)
Definition sorts_before (a b : float) : bool :=
  (a <? b)%float || (PrimFloat.is_nan b && negb (PrimFloat.is_nan a)).

(** In a list of indices that sorts [v], [i] may stand right before [j]:
    the item at [j] does not sort before the item at [i]. *)
Definition in_order (v : list float) (i j : nat) : Prop :=
  sorts_before (nth j v 0%float) (nth i v 0%float) = false.

(** What the script takes from outside: the files it reads, the routines
    of phonopy, scipy and numpy it calls, and the part of the package it
    calls that is not in this module, all uninterpreted. *)
Class ScriptEnv {lib : PhonopyLib} : Type := {
  np_loadtxt : string -> matrix float;
      (* the rows of the file: np.loadtxt(f, ndmin=2) *)
  sorted_glob : string -> list string;          (* sorted(glob.iglob(pattern)) *)
  yaml_thermal_properties : string -> list ThermalRecord;
      (* dict(yaml.load(stream))['thermal_properties'] *)
  read_supercell_phonon : string -> Py (matrix float);
      (* lines 110 to 118: iofile.read_parameters_from_input_file(f), the
         reader of the structure file it names, get_data_from_dict, and
         input_parameters['supercell_phonon']; whatever they print, exit
         on or raise *)
  get_volume_temperature : PhonopyQHA -> list float;
  qha_temperatures_to_max : PhonopyQHA -> list float;
      (* _qha._temperatures[:_qha._max_t_index] *)
  interp1d_call : interp1d float -> float -> option float;
  interp1d_call_array : interp1d Tensor -> float -> option Tensor;
      (* interp1d(x, y, kind='quadratic')(x_new); None: the ValueError of
         scipy, for samples it does not take or a point outside of them *)
  np_T : Tensor -> Tensor;                     (* a.T: the axes reversed *)
  argsort : list float -> list nat;
      (* np.argsort(v) with numpy's default sort, which is not stable:
         the indices that sort v, equal items in an order of numpy's
         choice *)
  argsort_perm : forall v, argsort v ≡ₚ seq 0 (length v);
  argsort_sorted : forall v, Sorted (in_order v) (argsort v)
}.

Section QhaExtract.
Context {lib : PhonopyLib} {rt : Runtime} {env : ScriptEnv}.

(** The command line, after [parser.parse_args()]. *)
Record Args : Type := {
  input_file : string;
  fc : list string;
  tp : list string;
  ev : string;
  t : float;
  p : bool
}.

(** [np.loadtxt(f)] returns the table of a file with a single row, or
    with a single column, as a one-dimensional array: its [.T[k]] is a
    number, not a column. *)
Definition one_dimensional (table : matrix float) : bool :=
  (length table <=? 1)%nat || (length (hd [] table) <=? 1)%nat.

(** [np.array(m).T[:, index]] for a list of rows [m].  Rows of one length
    make a two-dimensional array, whose transpose is indexed by [index]
    along its second axis, of the length of [m].  Rows of different
    lengths make a one-dimensional array of lists, and no rows an empty
    one-dimensional array: [[:, index]] then raises IndexError ([None]), as
    it does for an index out of range. *)
Definition T_columns (m : matrix float) (index : list nat) : option (matrix float) :=
  match m with
  | [] => None
  | row :: _ =>
      if forallb (fun r => (length r =? length row)%nat) m
         && forallb (fun i => (i <? length m)%nat) index
      then mapM (fun row => take_along row index) (transpose m)
      else None
  end.

(** Lines 120 to 123: the arrays of the force-constants files, in the
    order of [fc_filenames]. *)
Fixpoint read_force_constants (fc_filenames : list string)
    (fc_supercell : matrix float) : Py (list Tensor) :=
  match fc_filenames with
  | [] => ret []
  | filename :: rest =>
      force_constants <- get_force_constants_from_file filename (Some fc_supercell) ;;
      a <- ForceConstants_get_array force_constants ;;
      array <- array_at a ;;
      force_constants_mat <- read_force_constants rest fc_supercell ;;
      ret (array :: force_constants_mat)
  end.

(** What a run hands to its collaborators and writes. *)
Record Run : Type := {
  phonopy_qha : PhonopyQHA;
  fit_vt : interp1d float;
  f_temperature : interp1d Tensor;
  target_fc : Tensor                 (* written to FORCE_CONSTANTS_TEST *)
}.

(** The script.  The files are taken to be readable and PhonopyQHA to
    accept its data.  The plot of option [-p] is left out. *)
Definition qha_extract (args : Args) : Py Run :=
  (* Read energy volume data *)
  let target_temperature := t args in
  let ev_file := np_loadtxt (ev args) in
  volumes <- or_raise IndexError (transpose ev_file !! 0%nat) ;;
  electronic_energies <- or_raise IndexError (transpose ev_file !! 1%nat) ;;
  (* Read force constants *)
  let fc_filenames := flat_map sorted_glob (fc args) in
  (* Read and setup thermal_properties *)
  let tp_filenames := flat_map sorted_glob (tp args) in
  let temperatures :=                    (* those of the last file read *)
    match last tp_filenames with
    | Some filename => map temperature (yaml_thermal_properties filename)
    | None => []
    end in
  let fe_phonon := map (fun f => map free_energy (yaml_thermal_properties f)) tp_filenames in
  let entropy := map (fun f => map entropy (yaml_thermal_properties f)) tp_filenames in
  let cv := map (fun f => map heat_capacity (yaml_thermal_properties f)) tp_filenames in
  let sort_index := argsort volumes in
  (* of a one-dimensional ev_file, volumes is a number: it cannot be
     indexed *)
  volumes <- or_raise IndexError
    (if one_dimensional ev_file then None else take_along volumes sort_index) ;;
  electronic_energies <- or_raise IndexError (take_along electronic_energies sort_index) ;;
  fe_phonon <- or_raise IndexError (T_columns fe_phonon sort_index) ;;
  entropy <- or_raise IndexError (T_columns entropy sort_index) ;;
  cv <- or_raise IndexError (T_columns cv sort_index) ;;
  (* Apply QHA using phonopy *)
  let phonopy_qha := {| qha_volumes := volumes;
                        qha_electronic_energies := electronic_energies;
                        qha_temperatures := temperatures;
                        qha_free_energy := fe_phonon;
                        qha_cv := cv;
                        qha_entropy := entropy |} in
  let volume_temperature := get_volume_temperature phonopy_qha in
  let qha_temperatures := qha_temperatures_to_max phonopy_qha in
  (* Fit force constants as a function of the temperature *)
  let fit_vt := {| interp_x := qha_temperatures; interp_y := volume_temperature |} in
  target_volume <- or_raise ValueError (interp1d_call fit_vt target_temperature) ;;
  fc_supercell <- read_supercell_phonon (input_file args) ;;
  force_constants_mat <- read_force_constants fc_filenames fc_supercell ;;
  (* np.array(force_constants_mat).T: the files run along the last axis *)
  let f_temperature := {| interp_x := volumes;
                          interp_y := map np_T force_constants_mat |} in
  (* Get force constants at the requested temperature *)
  target_fc <- or_raise ValueError (interp1d_call_array f_temperature target_volume) ;;
  let target_fc := np_T target_fc in
  print "QHA Renormalized force constants written in file" ;;;
  ret {| phonopy_qha := phonopy_qha; fit_vt := fit_vt;
         f_temperature := f_temperature; target_fc := target_fc |}.

End QhaExtract.

(** ** A stand-in for the libraries

    Small executable instances of the three interfaces, to run the
    functions above on concrete inputs. *)

(** *** A sort for the stand-in of numpy: insertion, which is stable. *)

Fixpoint insert_index (v : list float) (i : nat) (sorted : list nat) : list nat :=
  match sorted with
  | [] => [i]
  | j :: rest =>
      if sorts_before (nth i v 0%float) (nth j v 0%float) then i :: sorted
      else j :: insert_index v i rest
  end.

Definition insertion_argsort (v : list float) : list nat :=
  fold_left (fun sorted i => insert_index v i sorted) (seq 0 (length v)) [].

(** It is a sort: what the instance below owes to [argsort_perm] and
    [argsort_sorted]. *)

Lemma SFcompare_refl (s : SpecFloat.spec_float) :
  s <> SpecFloat.S754_nan -> SpecFloat.SFcompare s s = Some Eq.
Proof.
  destruct s as [[|]|[|]| |[|] m e]; simpl; try done.
  - by rewrite Z.compare_refl, Pos.compare_cont_refl.
  - by rewrite Z.compare_refl, Pos.compare_cont_refl.
Qed.

(** The comparison of floats, read from the other side. *)
Lemma SFcompare_antisym (a b : SpecFloat.spec_float) (c : comparison) :
  SpecFloat.SFcompare a b = Some c -> SpecFloat.SFcompare b a = Some (CompOpp c).
Proof.
  unfold SpecFloat.SFcompare.
  destruct a as [[|]|[|]| |[|] m1 e1], b as [[|]|[|]| |[|] m2 e2];
    try (intros [= <-]; reflexivity); try discriminate.
  - rewrite (Z.compare_antisym e1 e2). destruct (e1 ?= e2)%Z; simpl;
      try (intros [= <-]; reflexivity).
    intros [= <-]. f_equal. rewrite CompOpp_involutive.
    apply (Pos.compare_cont_antisym m2 m1 Eq).
  - rewrite (Z.compare_antisym e1 e2). destruct (e1 ?= e2)%Z; simpl;
      try (intros [= <-]; reflexivity).
    intros [= <-]. f_equal. symmetry. apply (Pos.compare_cont_antisym m1 m2 Eq).
Qed.

Lemma ltb_asym (a b : float) : (a <? b)%float = true -> (b <? a)%float = false.
Proof.
  rewrite !FloatAxioms.ltb_spec. unfold SpecFloat.SFltb.
  destruct (SpecFloat.SFcompare (Prim2SF a) (Prim2SF b)) as [[| |]|] eqn:Hc; try done.
  by rewrite (SFcompare_antisym _ _ _ Hc).
Qed.

Lemma ltb_not_nan_l (a b : float) : (a <? b)%float = true -> PrimFloat.is_nan a = false.
Proof.
  unfold PrimFloat.is_nan. rewrite FloatAxioms.ltb_spec, FloatAxioms.eqb_spec.
  unfold SpecFloat.SFltb, SpecFloat.SFeqb. intros Hlt.
  rewrite SFcompare_refl; [done|]. intros Hnan. by rewrite Hnan in Hlt.
Qed.

Lemma nan_ltb (a b : float) : PrimFloat.is_nan b = true -> (b <? a)%float = false.
Proof.
  unfold PrimFloat.is_nan. rewrite FloatAxioms.ltb_spec, FloatAxioms.eqb_spec.
  unfold SpecFloat.SFltb, SpecFloat.SFeqb. intros Hnan.
  destruct (Prim2SF b) as [[|]|[|]| |[|] m e] eqn:Hb; try done;
    rewrite SFcompare_refl in Hnan; done.
Qed.

(** Of two floats only one sorts before the other. *)
Lemma sorts_before_asym (a b : float) :
  sorts_before a b = true -> sorts_before b a = false.
Proof.
  unfold sorts_before. intros [Hlt|[Hb Ha]%andb_prop]%orb_prop.
  - by rewrite (ltb_asym _ _ Hlt), (ltb_not_nan_l _ _ Hlt).
  - rewrite (nan_ltb _ _ Hb). apply negb_true_iff in Ha. by rewrite Ha.
Qed.

(** Inserting an index keeps the indices that are there. *)
Lemma insert_index_Permutation (v : list float) (i : nat) (sorted : list nat) :
  insert_index v i sorted ≡ₚ i :: sorted.
Proof.
  induction sorted as [|j rest IH]; simpl; [done|].
  destruct (sorts_before _ _); [done|]. rewrite IH. apply Permutation_swap.
Qed.

Lemma fold_insert_index_Permutation (v : list float) (indices acc : list nat) :
  fold_left (fun sorted i => insert_index v i sorted) indices acc ≡ₚ acc ++ indices.
Proof.
  revert acc. induction indices as [|i indices IH]; intros acc; simpl.
  - by rewrite app_nil_r.
  - rewrite IH, insert_index_Permutation. simpl. apply Permutation_middle.
Qed.

Lemma insertion_argsort_Permutation (v : list float) :
  insertion_argsort v ≡ₚ seq 0 (length v).
Proof. unfold insertion_argsort. by rewrite fold_insert_index_Permutation. Qed.

Lemma insert_index_Sorted (v : list float) (i : nat) (sorted : list nat) :
  Sorted (in_order v) sorted -> Sorted (in_order v) (insert_index v i sorted).
Proof.
  induction 1 as [|j rest Hrest IH Hhd]; simpl.
  - by repeat constructor.
  - destruct (sorts_before (nth i v 0%float) (nth j v 0%float)) eqn:Hij.
    + constructor; [by constructor|]. constructor. by apply sorts_before_asym.
    + constructor; [done|].
      destruct rest as [|j' rest]; simpl in *.
      * by constructor.
      * destruct (sorts_before (nth i v 0%float) (nth j' v 0%float));
          constructor; [done|]. by inversion Hhd.
Qed.

Lemma insertion_argsort_Sorted (v : list float) :
  Sorted (in_order v) (insertion_argsort v).
Proof.
  unfold insertion_argsort. generalize (seq 0 (length v)) as indices.
  assert (forall indices acc, Sorted (in_order v) acc ->
            Sorted (in_order v)
              (fold_left (fun sorted i => insert_index v i sorted) indices acc)) as H.
  { induction indices as [|i indices IH]; intros acc Hacc; simpl; [done|].
    by apply IH, insert_index_Sorted. }
  intros indices. apply H. constructor.
Qed.

Module Example.

(** A two-dimensional tensor and back. *)
Definition tensor_of_matrix (m : matrix float) : Tensor :=
  Rows (map (fun r => Rows (map Item r)) m).

Definition matrix_of_tensor (t : Tensor) : matrix float :=
  match t with
  | Rows rs => map ravel rs
  | Item a => [[a]]
  end.

(** The mean of a square matrix and its transpose. *)
Definition mean_with_transpose (m : matrix float) : matrix float :=
  zip_with (zip_with (fun x y => ((x + y) / 2)%float)) m (T (length m) m).

#[export] Instance lib : PhonopyLib := {|
  Dataset := unit;
  NacParams := unit;
  Symmetry := unit;
  Phonopy := PhonopyAtoms * matrix float;
  VaspToTHz := 15.633302%float;
  parse_FORCE_SETS := fun _ => tt;
  parse_FORCE_CONSTANTS := fun file_name =>
    tensor_of_matrix [[float_of_nat (String.length file_name)]];
  parse_BORN := fun _ _ => tt;
  Phonopy_init := fun bulk supercell_matrix _ _ => (bulk, supercell_matrix);
  get_primitive := fst;
  get_supercell := fst;
  symmetry := fun _ => tt;
  set_nac_params := fun phonon _ => phonon;
  set_force_constants := fun phonon _ => phonon;
  set_displacement_dataset := fun phonon _ => phonon;
  produce_force_constants := fun phonon _ => phonon;
  get_force_constants := fun _ => tensor_of_matrix [[0%float]];
  set_mesh := fun phonon _ _ _ => phonon;
  set_total_DOS := fun phonon _ _ _ => phonon;
  get_total_DOS := fun _ => ([0%float; 1%float], [2%float; 3%float]);
  set_partial_DOS := fun phonon _ _ => phonon;
  get_partial_DOS := fun _ =>
    ([0%float; 1%float], [[2%float; 3%float]; [4%float; 5%float]]);
  get_frequencies_with_eigenvectors := fun _ _ => ([], []);
  dynmat_to_fc := fun _ _ frequencies _ => tensor_of_matrix frequencies;
  commensurate_points := fun _ _ => [];
  tensor_symmetry_PJ := fun t _ _ _ =>
    tensor_of_matrix (mean_with_transpose (matrix_of_tensor t));
  Symmetry_init := fun _ => tt;
  get_reciprocal_operations := fun _ =>
    [ [[1; 0; 0]; [0; 1; 0]; [0; 0; 1]];
      [[-1; 0; 0]; [0; -1; 0]; [0; 0; -1]];
      [[0; 1; 0]; [1; 0; 0]; [0; 0; 1]];
      [[1; 0; 0]; [0; 1; 0]; [0; 0; 1]] ]%Z
|}.

(** Row vector times matrix and matrix times matrix, summed left to
    right. *)
Definition dot_vec (v : list float) (m : matrix float) : list float :=
  map (fun col => foldl (fun acc xy => (acc + fst xy * snd xy)%float) 0%float (zip v col))
      (transpose m).

Definition dot (a b : matrix float) : matrix float :=
  map (fun row => dot_vec row b) a.

(** The inverse of a diagonal matrix with a non-zero diagonal; nothing
    else is taken to be invertible here. *)
Definition inv_diagonal (m : matrix float) : option (matrix float) :=
  mapM (fun ir : nat * list float =>
    mapM (fun jx : nat * float =>
      if (fst ir =? fst jx)%nat then
        if (snd jx =? 0)%float then None else Some (1 / snd jx)%float
      else if (snd jx =? 0)%float then Some 0%float else None)
      (imap pair (snd ir)))
    (imap pair m).

#[export] Instance rt : Runtime := {|
  np_dot := fun a b => Some (dot a b);
  np_dot_vec := fun v m => Some (dot_vec v m);
  np_linalg_inv := inv_diagonal;
  set_order := reverse;
  set_order_perm := reverse_Permutation
|}.

(** Three volumes listed out of order, and per volume one
    thermal-properties file and one force-constants file. *)
#[export] Instance env : ScriptEnv (lib := lib) := {|
  np_loadtxt := fun _ => [[30; -1]; [10; -2]; [20; -3]]%float;
  sorted_glob := fun pattern =>
    if String.eqb pattern "fc-*" then ["fc-0"; "fc-10"; "fc-200"]
    else if String.eqb pattern "tp-*" then ["tp-0"; "tp-10"; "tp-200"]
    else [];
  yaml_thermal_properties := fun file_name =>
    let n := float_of_nat (String.length file_name) in
    [ {| temperature := 0; entropy := n; free_energy := n + 0.5; heat_capacity := n |};
      {| temperature := 100; entropy := n; free_energy := n + 0.25; heat_capacity := n |} ]%float;
  read_supercell_phonon := fun _ => ret (identity 3);
  get_volume_temperature := fun qha => qha_volumes qha;
  qha_temperatures_to_max := fun qha => qha_temperatures qha;
  interp1d_call := fun f x => Some x;
  interp1d_call_array := fun f x => Some (Rows (interp_y f));
  np_T := fun a => a;
  argsort := insertion_argsort;
  argsort_perm := insertion_argsort_Permutation;
  argsort_sorted := insertion_argsort_Sorted
|}.

Definition structure : Structure := {|
  atomic_elements := ["Si"; "Si"];
  structure_scaled_positions := [[0; 0; 0]; [0.25; 0.25; 0.25]]%float;
  structure_cell := identity 3;
  primitive_matrix := identity 3;
  supercell_phonon := identity 3;
  number_of_dimensions := 1;
  number_of_primitive_atoms := 2;
  number_of_atoms := 2;
  structure_force_constants := None;
  structure_force_sets := None
|}.

(** A store that holds this structure, at address 0. *)
Definition world : World := {| heap := [StructureObj structure]; stdout := [] |}.

(** A store that also holds a ForceConstants instance, at address 2, and
    its array, at address 1. *)
Definition world_fc : World :=
  {| heap := [StructureObj structure;
              Array (tensor_of_matrix [[1; 2]; [3; 4]]%float);
              ForceConstants 1 (Some (identity 3))];
     stdout := [] |}.

(** Two q-points of a two-mode structure. *)
Definition frequencies : matrix float := [[1; 2]; [3; 4]]%float.

Definition c (x : float) : complex := Complex x 0.

Definition eigenvectors : list (ndarray complex) :=
  [ Rows [Rows [Rows [Item (c 1)]; Rows [Item (c 2)]];
          Rows [Rows [Item (c 3)]; Rows [Item (c 4)]]];
    Rows [Rows [Rows [Item (c 5)]; Rows [Item (c 6)]];
          Rows [Rows [Item (c 7)]; Rows [Item (c 8)]]] ].

(** The item in row 0, column 1 of the array at address 1, compared with a
    bound that separates the tensor as built from the symmetrized one. *)
Definition item_0_1_below (bound : float) (o : option PyObject) : bool :=
  match o with
  | Some (Array (Rows (Rows (_ :: Item x :: _) :: _))) => (x <? bound)%float
  | _ => false
  end.

(** The only item of a one by one array, compared with a bound. *)
Definition item_0_0_below (bound : float) (o : option Tensor) : bool :=
  match o with
  | Some (Rows (Rows (Item x :: _) :: _)) => (x <? bound)%float
  | _ => false
  end.

Definition args : Args := {|
  input_file := "input"; fc := ["fc-*"]; tp := ["tp-*"]; ev := "e-v.dat";
  t := 300; p := false
|}.

End Example.

(** ** Names used in the statements *)

(** The lines the loaders and [get_phonon] may print. *)
Definition supercell_warning : string :=
  "No force sets supercell defined, set to identity".

Definition nac_warning : string := "Phonopy warning: Using Non Analytical Corrections".

(** No two positions of a list of rows hold equal rows. *)
Definition no_row_twice (rows : matrix float) : Prop :=
  forall i j r1 r2,
    rows !! i = Some r1 -> rows !! j = Some r2 -> tuple_eqb r1 r2 = true -> i = j.

Section Values.
Context {lib : PhonopyLib}.

(** The phonon object of [get_phonon(structure, setup_forces=False,
    custom_supercell=fc_supercell)]. *)
Definition bare_phonon (s : Structure) (fc_supercell : option (matrix float)) : Phonopy :=
  Phonopy_init (bulk_of s) (default (supercell_phonon s) fc_supercell)
    (primitive_matrix s) 1e-5%float.

(** The tensor the reconstruction context gives for well-shaped input. *)
Definition reconstructed_tensor (s : Structure) (fc_supercell : option (matrix float))
    (renormalized_frequencies : matrix float) (eigenvectors : list (ndarray complex)) : Tensor :=
  let size := number_of_dimensions s * number_of_primitive_atoms s in
  dynmat_to_fc (get_primitive (bare_phonon s fc_supercell))
    (get_supercell (bare_phonon s fc_supercell))
    (map (map (fun f => (f / VaspToTHz)%float)) renormalized_frequencies)
    (map (fun ev => T size (rows_of size size (ravel ev))) eigenvectors).

(** What [set_tensor_symmetry_PJ] leaves of a tensor, called as in
    [get_renormalized_force_constants]. *)
Definition symmetrized (s : Structure) (fc_supercell : option (matrix float))
    (t : Tensor) : Tensor :=
  let phonon := bare_phonon s fc_supercell in
  tensor_symmetry_PJ t (cell (get_supercell phonon))
    (scaled_positions (get_supercell phonon)) (symmetry phonon).

End Values.

(** ** The specification's wording of the lifecycle of force constants

    "Never mutated in place: transformations always produce a new
    ForceConstants instance", read on [get_renormalized_force_constants]:
    the tensor stored by the instance built at line 280 is still in its
    array when the function returns, and with [symmetrize] set the instance
    returned is another one. *)

Definition never_mutated_in_place {lib : PhonopyLib} : Prop :=
  forall (renormalized_frequencies : matrix float) (eigenvectors : list (ndarray complex))
         (structure : addr) (fc_supercell : option (matrix float)) (symmetrize : bool)
         (w w1 w2 : World) (phonon : Phonopy) (built returned a : addr) (t : Tensor),
    reconstructed_force_constants renormalized_frequencies eigenvectors structure
      fc_supercell w = (Returned (phonon, built), w1) ->
    heap w1 !! built = Some (ForceConstants a fc_supercell) ->
    heap w1 !! a = Some (Array t) ->
    get_renormalized_force_constants renormalized_frequencies eigenvectors structure
      fc_supercell symmetrize w = (Returned returned, w2) ->
    heap w2 !! a = Some (Array t) /\ (symmetrize = true -> returned <> built).

(** ** The specification's wording of what is returned

    "For every input, get_renormalized_force_constants returns a
    ForceConstants instance whose stored supercell field is exactly the
    fc_supercell argument it was called with", for every structure in the
    store. *)

Definition returns_for_every_input {lib : PhonopyLib} : Prop :=
  forall (renormalized_frequencies : matrix float) (eigenvectors : list (ndarray complex))
         (structure : addr) (s : Structure) (fc_supercell : option (matrix float))
         (symmetrize : bool) (w : World),
    heap w !! structure = Some (StructureObj s) ->
    exists force_constants a w',
      get_renormalized_force_constants renormalized_frequencies eigenvectors structure
        fc_supercell symmetrize w = (Returned force_constants, w') /\
      heap w' !! force_constants = Some (ForceConstants a fc_supercell).

(** ** The specification's wording of missing force data

    "Immediate process termination -- not a recoverable error, not an
    exception with a catchable type", read on [get_phonon] with
    [setup_forces] and a structure without force data: whatever handler a
    caller puts around the call, the process ends. *)

Definition not_catchable {lib : PhonopyLib} : Prop :=
  forall (structure : addr) (s : Structure) (NAC : bool)
         (custom_supercell : option (matrix float)) (handler : Py Phonopy) (w : World),
    heap w !! structure = Some (StructureObj s) ->
    structure_force_constants s = None ->
    structure_force_sets s = None ->
    fst (try_except_SystemExit (get_phonon structure NAC true custom_supercell) handler w)
      = Exited.

(** ** The rest of phonopy_link.py *)

(** numpy's print options that this module sets:
    [np.set_printoptions(precision=, suppress=)].  They are global to the
    process and outlive a call, so the functions that touch them take the
    options in force and return the options they leave. *)
Record PrintOptions : Type := {
  precision : Z;
  suppress : bool
}.

(** What the remaining functions take from phonopy and numpy, all
    uninterpreted: thermal properties, band structures, the norm of a
    complex row, the quotient of a complex item by a real one, and the text
    numpy prints for an array under given print options. *)
Class PhonopyOutput {lib : PhonopyLib} : Type := {
  BandStructure : Type;           (* what get_band_structure returns *)
  (* set_thermal_properties(t_step=, t_min=, t_max=) *)
  set_thermal_properties : Phonopy -> Z -> float -> float -> Phonopy;
  (* get_thermal_properties(): temperatures, free energies, entropies and
     heat capacities, one array each *)
  get_thermal_properties : Phonopy -> matrix float;
  (* set_band_structure(bands, is_band_connection=) *)
  set_band_structure : Phonopy -> list (matrix float) -> bool -> Phonopy;
  get_band_structure : Phonopy -> BandStructure;
  np_linalg_norm : list complex -> float;
  complex_div : complex -> float -> complex;
  (* str(frequencies) *)
  frequencies_str : PrintOptions -> list float -> string;
  (* str(np.dot(eigenvectors.T, np.ma.conjugate(eigenvectors)).real) *)
  orthonormality_str : PrintOptions -> matrix complex -> string
}.

Section PhonopyLinkRest.
Context {lib : PhonopyLib} {out : PhonopyOutput}.

(** *** eigenvectors_normalization: each row divided by its norm.  The
    array is overwritten row by row and returned; its only caller holds the
    one reference to it, so it is passed as a value. *)
Definition eigenvectors_normalization (eigenvector : matrix complex) : matrix complex :=
  map (fun row => map (fun z => complex_div z (np_linalg_norm row)) row) eigenvector.

(** *** obtain_eigenvectors_and_frequencies *)
Definition obtain_eigenvectors_and_frequencies (structure : addr) (q_vector : list float)
    (NAC test_orthonormal print_data : bool) (printoptions : PrintOptions)
    : Py (ndarray complex * list float * PrintOptions) :=
  phonon <- get_phonon structure NAC true None ;;
  let frequencies := fst (get_frequencies_with_eigenvectors phonon q_vector) in
  let eigenvectors := snd (get_frequencies_with_eigenvectors phonon q_vector) in
  (* Making sure eigenvectors are orthonormal (can be omitted) *)
  tested <- (if test_orthonormal then
               let eigenvectors := eigenvectors_normalization eigenvectors in
               print "Testing eigenvectors orthonormality" ;;;
               let printoptions := {| precision := 3; suppress := true |} in
               print (orthonormality_str printoptions eigenvectors) ;;;
               let printoptions :=
                 {| precision := precision printoptions; suppress := false |} in
               ret (eigenvectors, printoptions)
             else ret (eigenvectors, printoptions)) ;;
  let eigenvectors := fst tested in
  let printoptions := snd tested in
  (* Arranging eigenvectors by atoms and dimensions *)
  s <- structure_at structure ;;
  arranged_ev <- or_raise IndexError
    (arrange_ev (number_of_dimensions s) (number_of_primitive_atoms s) eigenvectors) ;;
  (if print_data then
     print "Harmonic frequencies (THz):" ;;;
     print (frequencies_str printoptions frequencies)
   else ret tt) ;;;
  ret (arranged_ev, frequencies, printoptions).

(** *** obtain_phonopy_thermal_properties.  Lines 183 to 191 are lines 150
    to 158 again: [dos_phonon]. *)
Definition obtain_phonopy_thermal_properties (structure : addr) (temperature : float)
    (mesh : list Z) (force_constants : option addr) : Py (float * float * float) :=
  phonon <- dos_phonon structure force_constants ;;
  let phonon := set_mesh phonon mesh None None in
  let phonon := set_thermal_properties phonon 1 temperature temperature in
  (* t, free_energy, entropy, cv = np.array(...).T[0] *)
  first <- or_raise IndexError (transpose (get_thermal_properties phonon) !! 0) ;;
  match first with
  | [t; free_energy; entropy; cv] =>
      (* Normalize to unit cell *)
      s <- structure_at structure ;;
      if (number_of_primitive_atoms s =? 0)%nat then raise ZeroDivisionError
      else
        let unit_cell_relation := (float_of_nat (number_of_atoms s)
                                   / float_of_nat (number_of_primitive_atoms s))%float in
        ret ((free_energy * unit_cell_relation)%float,
             (entropy * unit_cell_relation)%float,
             (cv * unit_cell_relation)%float)
  | _ => raise ValueError
  end.

(** *** obtain_phonon_dispersion_bands *)

(** An operation on two one-dimensional arrays, item by item: the lengths
    are equal, or one of them is 1 and its item is used throughout;
    otherwise numpy raises ValueError ([None]). *)
Definition broadcast (f : float -> float -> float) (a b : list float)
    : option (list float) :=
  if (length a =? length b)%nat then Some (zip_with f a b)
  else match a, b with
       | [x], _ => Some (map (f x) b)
       | _, [y] => Some (map (fun x => f x y) a)
       | _, _ => None
       end.

(** [np.array(q_start) + (np.array(q_end) - np.array(q_start))
    / band_resolution * i] *)
Definition band_point (q_start q_end : list float) (band_resolution : Z) (i : nat)
    : option (list float) :=
  broadcast PrimFloat.sub q_end q_start ≫= fun difference =>
  broadcast PrimFloat.add q_start
    (map (fun x => (x / float_of_Z band_resolution * float_of_nat i)%float) difference).

(** The points of one band: [i] runs over [range(band_resolution + 1)]. *)
Definition band_points (q_start q_end : list float) (band_resolution : Z)
    : option (matrix float) :=
  mapM (band_point q_start q_end band_resolution)
       (seq 0 (Z.to_nat (band_resolution + 1))).

Definition obtain_phonon_dispersion_bands (structure : addr)
    (bands_ranges : list (list float * list float)) (force_constants : option addr)
    (NAC : bool) (band_resolution : Z) : Py BandStructure :=
  phonon <- match force_constants with
            | Some fc =>
                sc <- ForceConstants_get_supercell fc ;;
                phonon <- get_phonon structure false false sc ;;
                a <- ForceConstants_get_array fc ;;
                t <- array_at a ;;
                ret (set_force_constants phonon t)
            | None => get_phonon structure NAC true None
            end ;;
  bands <- or_raise ValueError
    (mapM (fun range => band_points (fst range) (snd range) band_resolution)
          bands_ranges) ;;
  let phonon := set_band_structure phonon bands false in
  ret (get_band_structure phonon).

End PhonopyLinkRest.

(** ** A stand-in for the remaining interface *)

Module ExampleRest.
Import Example.

(** The stand-in phonon object is a pair: the cell and, once bands are
    set, their points. *)
Definition with_bands (phonon : @Phonopy Example.lib) (bands : list (matrix float))
    : @Phonopy Example.lib :=
  let pair : PhonopyAtoms * matrix float := phonon in (fst pair, concat bands).

Definition bands_of (phonon : @Phonopy Example.lib) : list (matrix float) :=
  let pair : PhonopyAtoms * matrix float := phonon in [snd pair].

#[export] Instance out : @PhonopyOutput Example.lib := {|
  BandStructure := list (matrix float);
  set_thermal_properties := fun phonon _ _ _ => phonon;
  get_thermal_properties := fun _ => [[300]; [-1]; [2]; [3]]%float;
  set_band_structure := fun phonon bands _ => with_bands phonon bands;
  get_band_structure := bands_of;
  np_linalg_norm := fun row => float_of_nat (length row);
  complex_div := fun z x => Complex (re z / x) (im z / x);
  frequencies_str := fun options _ => "precision " +:+ pretty (precision options);
  orthonormality_str := fun options _ => "precision " +:+ pretty (precision options)
|}.

(** A structure with force sets only, and a store that holds it at address
    0 and the force sets at address 1. *)
Definition structure_fs : Structure := {|
  atomic_elements := ["Si"; "Si"];
  structure_scaled_positions := [[0; 0; 0]; [0.25; 0.25; 0.25]]%float;
  structure_cell := identity 3;
  primitive_matrix := identity 3;
  supercell_phonon := identity 3;
  number_of_dimensions := 1;
  number_of_primitive_atoms := 2;
  number_of_atoms := 4;
  structure_force_constants := None;
  structure_force_sets := Some 1
|}.

Definition world_fs : World :=
  {| heap := [StructureObj structure_fs; ForceSets tt (Some (identity 2))];
     stdout := [] |}.

(** A structure with force constants, at address 0; the instance is at
    address 2 and its array at address 1. *)
Definition structure_fc : Structure := {|
  atomic_elements := ["Si"; "Si"];
  structure_scaled_positions := [[0; 0; 0]; [0.25; 0.25; 0.25]]%float;
  structure_cell := identity 3;
  primitive_matrix := identity 3;
  supercell_phonon := identity 3;
  number_of_dimensions := 1;
  number_of_primitive_atoms := 2;
  number_of_atoms := 4;
  structure_force_constants := Some 2;
  structure_force_sets := None
|}.

Definition world_with_fc : World :=
  {| heap := [StructureObj structure_fc;
              Array (Example.tensor_of_matrix [[1; 2]; [3; 4]]%float);
              ForceConstants 1 (Some (identity 2))];
     stdout := [] |}.

(** A structure without primitive atoms. *)
Definition structure_empty : Structure := {|
  atomic_elements := [];
  structure_scaled_positions := [];
  structure_cell := identity 3;
  primitive_matrix := identity 3;
  supercell_phonon := identity 3;
  number_of_dimensions := 3;
  number_of_primitive_atoms := 0;
  number_of_atoms := 0;
  structure_force_constants := Some 2;
  structure_force_sets := None
|}.

Definition world_empty : World :=
  {| heap := [StructureObj structure_empty;
              Array (Example.tensor_of_matrix []);
              ForceConstants 1 (Some (identity 3))];
     stdout := [] |}.

(** An energy-volume file whose volumes are in order, with three
    thermal-properties files under one pattern and two under another, and
    readers of the input file that print a line. *)
#[export] Instance env_in_order : ScriptEnv (lib := lib) := {|
  np_loadtxt := fun _ => [[10; -2]; [20; -3]; [30; -1]]%float;
  sorted_glob := fun pattern =>
    if String.eqb pattern "fc-*" then ["fc-0"; "fc-10"; "fc-200"]
    else if String.eqb pattern "tp-*" then ["tp-0"; "tp-10"; "tp-200"]
    else if String.eqb pattern "few-*" then ["few-0"; "few-10"]
    else [];
  yaml_thermal_properties := fun file_name =>
    let n := float_of_nat (String.length file_name) in
    [ {| temperature := 0; entropy := n; free_energy := n + 0.5; heat_capacity := n |} ]%float;
  read_supercell_phonon := fun file_name =>
    print ("Reading " +:+ file_name) ;;;
    ret (identity 3);
  get_volume_temperature := fun qha => qha_volumes qha;
  qha_temperatures_to_max := fun qha => qha_temperatures qha;
  interp1d_call := fun f x => Some x;
  interp1d_call_array := fun f x => Some (Rows (interp_y f));
  np_T := fun a => a;
  argsort := insertion_argsort;
  argsort_perm := insertion_argsort_Permutation;
  argsort_sorted := insertion_argsort_Sorted
|}.



(** Numpy's default print options. *)
Definition default_printoptions : PrintOptions := {| precision := 8; suppress := false |}.

(** A phonopy that reports two modes: the stand-in above, except for the
    frequencies and eigenvectors. *)
#[export] Instance lib_modes : PhonopyLib := {|
  Dataset := @Dataset Example.lib;
  NacParams := @NacParams Example.lib;
  Symmetry := @Symmetry Example.lib;
  Phonopy := @Phonopy Example.lib;
  VaspToTHz := @VaspToTHz Example.lib;
  parse_FORCE_SETS := @parse_FORCE_SETS Example.lib;
  parse_FORCE_CONSTANTS := @parse_FORCE_CONSTANTS Example.lib;
  parse_BORN := @parse_BORN Example.lib;
  Phonopy_init := @Phonopy_init Example.lib;
  get_primitive := @get_primitive Example.lib;
  get_supercell := @get_supercell Example.lib;
  symmetry := @symmetry Example.lib;
  set_nac_params := @set_nac_params Example.lib;
  set_force_constants := @set_force_constants Example.lib;
  set_displacement_dataset := @set_displacement_dataset Example.lib;
  produce_force_constants := @produce_force_constants Example.lib;
  get_force_constants := @get_force_constants Example.lib;
  set_mesh := @set_mesh Example.lib;
  set_total_DOS := @set_total_DOS Example.lib;
  get_total_DOS := @get_total_DOS Example.lib;
  set_partial_DOS := @set_partial_DOS Example.lib;
  get_partial_DOS := @get_partial_DOS Example.lib;
  get_frequencies_with_eigenvectors := fun _ _ =>
    ([1.5; 2.5]%float, [[c 3; c 0]; [c 4; c 4]]);
  dynmat_to_fc := @dynmat_to_fc Example.lib;
  commensurate_points := @commensurate_points Example.lib;
  tensor_symmetry_PJ := @tensor_symmetry_PJ Example.lib;
  Symmetry_init := @Symmetry_init Example.lib;
  get_reciprocal_operations := @get_reciprocal_operations Example.lib
|}.

(** Its text of an array names the print options and the size of the
    array. *)
Definition options_str (options : PrintOptions) (items : nat) : string :=
  pretty items +:+ " items, precision " +:+ pretty (precision options)
  +:+ (if suppress options then ", suppress" else "").

#[export] Instance out_modes : @PhonopyOutput lib_modes :=
  @Build_PhonopyOutput lib_modes
    (list (matrix float))
    (fun phonon _ _ _ => phonon)
    (fun _ => [[300]; [-1]; [2]; [3]]%float)
    (fun phonon bands _ => with_bands phonon bands)
    bands_of
    (fun row => float_of_nat (length row))
    (fun z x => Complex (re z / x) (im z / x))
    (fun options frequencies => options_str options (length frequencies))
    (fun options m => options_str options (length (concat m))).

(** The structure with force constants, in a store of that phonopy. *)
Definition world_modes : @World lib_modes :=
  {| heap := [@StructureObj lib_modes structure_fc;
              Array (Example.tensor_of_matrix [[1; 2]; [3; 4]]%float);
              ForceConstants 1 (Some (identity 2))];
     stdout := [] |}.

End ExampleRest.

(** ** Names used in the further statements *)

Section ValuesRest.
Context {lib : PhonopyLib}.

(** The phonon object before any force data is set. *)
Definition phonon_with_nac (s : Structure) (NAC : bool)
    (custom_supercell : option (matrix float)) : Phonopy :=
  let phonon := bare_phonon s custom_supercell in
  if NAC then set_nac_params phonon (parse_BORN (get_primitive phonon) true)
  else phonon.

End ValuesRest.

(** The item of a matrix, or zero outside of it. *)
Definition item_or_zero (E : matrix complex) (m i : nat) : complex :=
  default (Complex 0 0) (item2 E m i).


(** The image of a q-point by one symmetry operation, when numpy computes
    it: the value of the three products of lines 251 to 254. *)
Definition q_point_image_value {rt : Runtime} (q_point : list float)
    (primitive_matrix : matrix float) (operation_matrix : matrix Z)
    : option (list float) :=
  np_linalg_inv primitive_matrix ≫= fun p_inv =>
  np_dot p_inv (map (map float_of_Z) (transpose operation_matrix)) ≫= fun m =>
  np_dot m primitive_matrix ≫= fun operation_matrix_q =>
  np_dot_vec q_point operation_matrix_q.


(** * Properties *)

(** *** Layout lemmas *)

Section Layout.
Context {A : Type}.

Lemma length_rows_of (n m : nat) (d : list A) : length (rows_of n m d) = n.
Proof. revert d; induction n as [|n IH]; intros d; simpl; [done | by rewrite IH]. Qed.

Lemma rows_of_lookup (n m : nat) (d : list A) (i j : nat) :
  i < n -> j < m -> item2 (rows_of n m d) i j = d !! (i * m + j).
Proof.
  unfold item2. revert d i; induction n as [|n IH]; intros d i Hi Hj; [lia |].
  destruct i as [|i].
  - cbn [rows_of]. simpl. by rewrite lookup_take_lt.
  - cbn [rows_of]. simpl. rewrite (IH (drop m d) i) by lia.
    rewrite lookup_drop. f_equal. lia.
Qed.

Lemma rows_of_row_length (n m : nat) (d : list A) :
  length d = n * m -> Forall (fun r => length r = m) (rows_of n m d).
Proof.
  revert d; induction n as [|n IH]; intros d Hd; simpl; constructor.
  - rewrite length_take. simpl in Hd. lia.
  - apply IH. rewrite length_drop. simpl in Hd. lia.
Qed.

Lemma length_T (c : nat) (M : matrix A) :
  Forall (fun r => length r = c) M -> length (T c M) = c.
Proof.
  induction 1 as [|r M Hr _ IH]; simpl.
  - by rewrite length_replicate.
  - rewrite length_zip_with. lia.
Qed.

Lemma T_lookup (c : nat) (M : matrix A) (i j : nat) :
  Forall (fun r => length r = c) M ->
  i < length M -> j < c -> item2 (T c M) j i = item2 M i j.
Proof.
  unfold item2. intros HM; revert i; induction HM as [|r M Hr HM IH]; intros i Hi Hj.
  - simpl in Hi; lia.
  - simpl. rewrite lookup_zip_with.
    destruct (lookup_lt_is_Some_2 r j ltac:(lia)) as [a Ha].
    assert (j < length (T c M)) as HT by (rewrite length_T; [lia | done]).
    destruct (lookup_lt_is_Some_2 _ j HT) as [col Hcol].
    rewrite Ha, Hcol. simpl.
    destruct i as [|i]; simpl; [by rewrite Ha |].
    simpl in Hi. specialize (IH i ltac:(lia) Hj). by rewrite Hcol in IH.
Qed.

(** Row-major reshape followed by transposition, item by item. *)
Lemma reshape_T_item (x : ndarray A) (size : nat) (M : matrix A) (i j : nat) :
  reshape x size size = Some M -> i < size -> j < size ->
  item2 (T size M) i j = ravel x !! (j * size + i).
Proof.
  unfold reshape. intros HM Hi Hj.
  destruct (Nat.eqb_spec (length (ravel x)) (size * size)) as [Hlen|]; [|done].
  injection HM as <-.
  rewrite T_lookup; [by apply rows_of_lookup | by apply rows_of_row_length | |done].
  by rewrite length_rows_of.
Qed.

Lemma reshape_is_Some (x : ndarray A) (n m : nat) :
  length (ravel x) = n * m -> reshape x n m = Some (rows_of n m (ravel x)).
Proof. unfold reshape. intros ->. by rewrite Nat.eqb_refl. Qed.

End Layout.

(** ** Running a program step by step *)

Section Steps.
Context {lib : PhonopyLib}.

Lemma bind_returned {A B} (c : Py A) (k : A -> Py B) (w w' : World) (a : A) :
  c w = (Returned a, w') -> bind c k w = k a w'.
Proof. unfold bind. by intros ->. Qed.

Lemma bind_exited {A B} (c : Py A) (k : A -> Py B) (w w' : World) :
  c w = (Exited, w') -> bind c k w = (Exited, w').
Proof. unfold bind. by intros ->. Qed.

Lemma bind_raised {A B} (c : Py A) (k : A -> Py B) (w w' : World) (e : Exception) :
  c w = (Raised e, w') -> bind c k w = (Raised e, w').
Proof. unfold bind. by intros ->. Qed.

Lemma structure_at_returned (a : addr) (s : Structure) (w : World) :
  heap w !! a = Some (StructureObj s) -> structure_at a w = (Returned s, w).
Proof. unfold structure_at. by intros ->. Qed.

(** The constructor allocates a copy of the tensor and then the instance
    that points to it. *)
Lemma ForceConstants_init_returned (t : Tensor) (sc : option (matrix float)) (w : World) :
  ForceConstants_init t sc w =
    (Returned (S (length (heap w))),
     {| heap := heap w ++ [Array t; ForceConstants (length (heap w)) sc];
        stdout := stdout w |}).
Proof.
  unfold ForceConstants_init, np_array, new, bind. simpl.
  rewrite length_app, <- app_assoc. simpl. do 3 f_equal. lia.
Qed.

Lemma ForceSets_init_returned (d : Dataset) (sc : option (matrix float)) (w : World) :
  ForceSets_init d sc w =
    (Returned (length (heap w)),
     {| heap := heap w ++ [ForceSets d sc]; stdout := stdout w |}).
Proof. done. Qed.

Lemma lookup_new_array (h : list PyObject) (t : Tensor) (o : PyObject) :
  (h ++ [Array t; o]) !! length h = Some (Array t).
Proof. rewrite lookup_app_r by lia. by rewrite Nat.sub_diag. Qed.

Lemma lookup_new_instance (h : list PyObject) (o o' : PyObject) :
  (h ++ [o; o']) !! S (length h) = Some o'.
Proof.
  rewrite lookup_app_r by lia. by replace (S (length h) - length h) with 1 by lia.
Qed.

End Steps.

(** ** Loading force data *)

Section Loading.
Context {lib : PhonopyLib}.

Lemma identity_3 :
  identity 3 = [[1; 0; 0]; [0; 1; 0]; [0; 0; 1]]%float.
Proof. reflexivity. Qed.

(** The instance a loader returns and what it printed. *)
Lemma get_force_constants_from_file_returned
    (file_name : string) (fc_supercell : option (matrix float)) (w : World) :
  get_force_constants_from_file file_name fc_supercell w =
    (Returned (S (length (heap w))),
     {| heap := heap w ++
          [Array (parse_FORCE_CONSTANTS file_name);
           ForceConstants (length (heap w))
             (Some (default (identity 3) fc_supercell))];
        stdout := stdout w ++
          match fc_supercell with Some _ => [] | None => [supercell_warning] end |}).
Proof.
  unfold get_force_constants_from_file.
  erewrite bind_returned by apply ForceConstants_init_returned.
  destruct fc_supercell as [sc|]; unfold bind, print, ForceConstants_set_supercell, store, ret;
    simpl; rewrite lookup_new_instance; simpl; f_equal.
  - f_equal; [|by rewrite app_nil_r].
    rewrite insert_app_r_alt by lia. by replace (S (length (heap w)) - length (heap w)) with 1 by lia.
  - f_equal.
    rewrite insert_app_r_alt by lia. by replace (S (length (heap w)) - length (heap w)) with 1 by lia.
Qed.

Lemma get_force_sets_from_file_returned
    (file_name : string) (fs_supercell : option (matrix float)) (w : World) :
  get_force_sets_from_file file_name fs_supercell w =
    (Returned (length (heap w)),
     {| heap := heap w ++
          [ForceSets (parse_FORCE_SETS file_name)
             (Some (default (identity 3) fs_supercell))];
        stdout := stdout w ++
          match fs_supercell with Some _ => [] | None => [supercell_warning] end |}).
Proof.
  unfold get_force_sets_from_file.
  erewrite bind_returned by apply ForceSets_init_returned.
  destruct fs_supercell as [sc|]; unfold bind, print, ForceSets_set_supercell, store, ret;
    simpl; rewrite lookup_app_r by lia; rewrite Nat.sub_diag; simpl; f_equal.
  - f_equal; [|by rewrite app_nil_r].
    rewrite insert_app_r_alt by lia. by rewrite Nat.sub_diag.
  - f_equal. rewrite insert_app_r_alt by lia. by rewrite Nat.sub_diag.
Qed.

(** C5. Both loaders return a new container.  Called without a supercell
    they store the 3 by 3 identity matrix in it and print one warning
    line; called with a supercell they store that supercell and print
    nothing. *)
Theorem loaded_force_data_supercell (file_name : string) (w : World) :
  (exists fc a w',
      get_force_constants_from_file file_name None w = (Returned fc, w') /\
      heap w' !! fc =
        Some (ForceConstants a (Some [[1; 0; 0]; [0; 1; 0]; [0; 0; 1]]%float)) /\
      stdout w' = stdout w ++ [supercell_warning]) /\
  (exists fs d w',
      get_force_sets_from_file file_name None w = (Returned fs, w') /\
      heap w' !! fs =
        Some (ForceSets d (Some [[1; 0; 0]; [0; 1; 0]; [0; 0; 1]]%float)) /\
      stdout w' = stdout w ++ [supercell_warning]) /\
  (forall supercell, exists fc a w',
      get_force_constants_from_file file_name (Some supercell) w = (Returned fc, w') /\
      heap w' !! fc = Some (ForceConstants a (Some supercell)) /\
      stdout w' = stdout w) /\
  (forall supercell, exists fs d w',
      get_force_sets_from_file file_name (Some supercell) w = (Returned fs, w') /\
      heap w' !! fs = Some (ForceSets d (Some supercell)) /\
      stdout w' = stdout w).
Proof.
  repeat split; intros;
    (do 3 eexists; split;
      [first [apply get_force_constants_from_file_returned
             | apply get_force_sets_from_file_returned] |]);
    simpl; rewrite ?app_nil_r; split; try reflexivity.
  - apply lookup_new_instance.
  - rewrite lookup_app_r by lia. by rewrite Nat.sub_diag.
  - apply lookup_new_instance.
  - rewrite lookup_app_r by lia. by rewrite Nat.sub_diag.
Qed.

End Loading.

(** ** Missing force data and projected densities of states *)

Section Termination.
Context {lib : PhonopyLib}.

(** With [setup_forces] set and a structure that has neither force
    constants nor force sets, [get_phonon] prints its message and calls
    [exit()]. *)
Lemma get_phonon_exits (structure : addr) (s : Structure) (NAC : bool)
    (custom_supercell : option (matrix float)) (w : World) :
  heap w !! structure = Some (StructureObj s) ->
  structure_force_constants s = None ->
  structure_force_sets s = None ->
  get_phonon structure NAC true custom_supercell w =
    (Exited,
     {| heap := heap w;
        stdout := stdout w ++ (if NAC then [nac_warning] else [])
                           ++ ["No force sets/constants available!"] |}).
Proof.
  intros Hs Hfc Hfs. unfold get_phonon.
  erewrite bind_returned by by apply structure_at_returned.
  rewrite Hfc, Hfs.
  destruct NAC; unfold bind, print, ret, exit; simpl; [|done].
  by rewrite <- app_assoc.
Qed.

(** C8, as the code has it.  With [setup_forces] set and a structure that
    has neither force constants nor force sets, [get_phonon] prints its
    message (after the warning, when [NAC] is set) and raises the
    SystemExit of [exit()], whatever the other arguments are: it returns no
    phonon object, raises none of the other exceptions and leaves the store
    as it was.  A caller that catches SystemExit goes on in its handler,
    with the message printed; a caller that does not passes it on. *)
Theorem get_phonon_without_force_data (structure : addr) (s : Structure) (NAC : bool)
    (custom_supercell : option (matrix float)) (w : World) :
  heap w !! structure = Some (StructureObj s) ->
  structure_force_constants s = None ->
  structure_force_sets s = None ->
  let w1 := {| heap := heap w;
               stdout := stdout w ++ (if NAC then [nac_warning] else [])
                                  ++ ["No force sets/constants available!"] |} in
  get_phonon structure NAC true custom_supercell w = (Exited, w1) /\
  (forall handler : Py Phonopy,
     try_except_SystemExit (get_phonon structure NAC true custom_supercell) handler w
       = handler w1) /\
  (forall (B : Type) (k : Phonopy -> Py B),
     bind (get_phonon structure NAC true custom_supercell) k w = (Exited, w1)).
Proof.
  intros Hs Hfc Hfs w1.
  pose proof (get_phonon_exits structure s NAC custom_supercell w Hs Hfc Hfs) as Hexit.
  fold w1 in Hexit. split; [done|]. split.
  - intros handler. unfold try_except_SystemExit. by rewrite Hexit.
  - intros B k. unfold bind. by rewrite Hexit.
Qed.

(** Without [setup_forces] the structure's force data is not looked at
    and the phonon object is returned. *)
Lemma get_phonon_no_setup (structure : addr) (s : Structure)
    (custom_supercell : option (matrix float)) (w : World) :
  heap w !! structure = Some (StructureObj s) ->
  get_phonon structure false false custom_supercell w =
    (Returned (Phonopy_init (bulk_of s) (default (supercell_phonon s) custom_supercell)
                 (primitive_matrix s) 1e-5%float), w).
Proof.
  intros Hs. unfold get_phonon.
  erewrite bind_returned by by apply structure_at_returned.
  by destruct custom_supercell.
Qed.

Lemma pretty_index_example : "No atom type " +:+ pretty 5%Z = "No atom type 5".
Proof. reflexivity. Qed.

(** C9. Once the phonon object is there, a projected-DOS atom index at or
    above the number of partial-DOS entries makes [obtain_phonopy_dos]
    print a line that names the index and end the process. *)
Theorem obtain_phonopy_dos_atom_out_of_range (structure : addr) (mesh : list Z)
    (force_constants : option addr) (freq_min freq_max : option float)
    (projected_on_atom : Z) (w w1 : World) (phonon : Phonopy) :
  dos_phonon structure force_constants w = (Returned phonon, w1) ->
  (Z.of_nat (length (snd (get_partial_DOS
      (set_partial_DOS (set_mesh phonon mesh (Some true) (Some false))
         freq_min freq_max)))) <= projected_on_atom)%Z ->
  obtain_phonopy_dos structure mesh force_constants freq_min freq_max
      projected_on_atom w =
    (Exited,
     {| heap := heap w1;
        stdout := stdout w1 ++ ["No atom type " +:+ pretty projected_on_atom] |}).
Proof.
  intros Hphonon Hrange. unfold obtain_phonopy_dos.
  erewrite bind_returned by exact Hphonon.
  destruct (Z.ltb_spec projected_on_atom 0) as [Hneg|_]; [lia|].
  apply Z.leb_le in Hrange. rewrite Hrange. reflexivity.
Qed.

(** When the phonon object cannot be had because the structure has no
    force data, the process ends earlier, with the message of
    [get_phonon]. *)
Lemma obtain_phonopy_dos_without_force_data (structure : addr) (s : Structure)
    (mesh : list Z) (freq_min freq_max : option float) (projected_on_atom : Z)
    (w : World) :
  heap w !! structure = Some (StructureObj s) ->
  structure_force_constants s = None ->
  structure_force_sets s = None ->
  obtain_phonopy_dos structure mesh None freq_min freq_max projected_on_atom w =
    (Exited,
     {| heap := heap w;
        stdout := stdout w ++ ["No force sets/constants available!"] |}).
Proof.
  intros Hs Hfc Hfs. unfold obtain_phonopy_dos, dos_phonon.
  erewrite bind_exited; [reflexivity|].
  unfold get_phonon.
  erewrite bind_returned by by apply structure_at_returned.
  by rewrite Hfc, Hfs.
Qed.

End Termination.

Section TerminationExample.
#[local] Existing Instance Example.lib.

Lemma get_phonon_without_force_data_witness :
  let w1 := {| heap := heap Example.world;
               stdout := [nac_warning; "No force sets/constants available!"] |} in
  get_phonon 0 true true None Example.world = (Exited, w1) /\
  (forall handler : Py Phonopy,
     try_except_SystemExit (get_phonon 0 true true None) handler Example.world
       = handler w1) /\
  (forall (B : Type) (k : Phonopy -> Py B),
     bind (get_phonon 0 true true None) k Example.world = (Exited, w1)).
Proof.
  apply (get_phonon_without_force_data 0 Example.structure true None Example.world);
    reflexivity.
Defined.

(** A caller that catches SystemExit and falls back on the phonon object
    without force data gets that object: the process goes on. *)
Lemma SystemExit_is_caught : ~ not_catchable.
Proof.
  intros Hclaim.
  specialize (Hclaim 0 Example.structure false None
                (get_phonon 0 false false None) Example.world
                eq_refl eq_refl eq_refl).
  vm_compute in Hclaim. discriminate.
Qed.

Lemma obtain_phonopy_dos_atom_out_of_range_witness :
  obtain_phonopy_dos 0 [40; 40; 40]%Z (Some 2) None None 5 Example.world_fc =
    (Exited,
     {| heap := heap Example.world_fc; stdout := ["No atom type 5"] |}).
Proof.
  apply (obtain_phonopy_dos_atom_out_of_range 0 [40; 40; 40]%Z (Some 2) None None 5
           Example.world_fc Example.world_fc
           (bulk_of Example.structure, identity 3)).
  - reflexivity.
  - simpl. lia.
Defined.

End TerminationExample.


(** ** The reconstruction of force constants *)

Section Reconstruction.
Context {lib : PhonopyLib}.

(** Every bundle that holds [size * size] items is reshaped. *)
Lemma reshape_all (size : nat) (eigenvectors : list (ndarray complex)) :
  Forall (fun ev => length (ravel ev) = size * size) eigenvectors ->
  mapM (fun ev => T size <$> reshape ev size size) eigenvectors =
    Some (map (fun ev => T size (rows_of size size (ravel ev))) eigenvectors).
Proof.
  intros Hevs. apply mapM_Some. induction Hevs as [|ev evs Hev _ IH]; simpl.
  - constructor.
  - constructor; [|exact IH]. by rewrite reshape_is_Some.
Qed.

(** A bundle of another size makes numpy raise. *)
Lemma reshape_some_fails (size : nat) (eigenvectors : list (ndarray complex)) :
  Exists (fun ev => length (ravel ev) <> size * size) eigenvectors ->
  mapM (fun ev => T size <$> reshape ev size size) eigenvectors = None.
Proof.
  intros Hevs. apply eq_None_not_Some. intros [k Hk]. apply mapM_Some in Hk.
  induction Hk as [|ev M evs k HM _ IH]; inversion Hevs as [? ? Hbad|? ? Hbad]; subst.
  - unfold reshape in HM. destruct (Nat.eqb_spec (length (ravel ev)) (size * size)); done.
  - by apply IH.
Qed.

Lemma reconstruction_context_returned (renormalized_frequencies : matrix float)
    (eigenvectors : list (ndarray complex)) (structure : addr) (s : Structure)
    (fc_supercell : option (matrix float)) (w : World) :
  heap w !! structure = Some (StructureObj s) ->
  Forall (fun ev => length (ravel ev) =
            (number_of_dimensions s * number_of_primitive_atoms s) *
            (number_of_dimensions s * number_of_primitive_atoms s)) eigenvectors ->
  reconstruction_context renormalized_frequencies eigenvectors structure fc_supercell w =
    (Returned
       (bare_phonon s fc_supercell,
        {| dynmat_primitive := get_primitive (bare_phonon s fc_supercell);
           dynmat_supercell := get_supercell (bare_phonon s fc_supercell);
           dynmat_frequencies :=
             map (map (fun f => (f / VaspToTHz)%float)) renormalized_frequencies;
           dynmat_eigenvectors :=
             map (fun ev =>
                    T (number_of_dimensions s * number_of_primitive_atoms s)
                      (rows_of (number_of_dimensions s * number_of_primitive_atoms s)
                         (number_of_dimensions s * number_of_primitive_atoms s)
                         (ravel ev))) eigenvectors |}), w).
Proof.
  intros Hs Hevs. unfold reconstruction_context.
  erewrite bind_returned by by apply get_phonon_no_setup.
  erewrite bind_returned by by apply structure_at_returned.
  by rewrite reshape_all.
Qed.

(** With a bundle of the wrong size nothing is reconstructed. *)
Lemma reconstruction_context_raised (renormalized_frequencies : matrix float)
    (eigenvectors : list (ndarray complex)) (structure : addr) (s : Structure)
    (fc_supercell : option (matrix float)) (w : World) :
  heap w !! structure = Some (StructureObj s) ->
  Exists (fun ev => length (ravel ev) <>
            (number_of_dimensions s * number_of_primitive_atoms s) *
            (number_of_dimensions s * number_of_primitive_atoms s)) eigenvectors ->
  reconstruction_context renormalized_frequencies eigenvectors structure fc_supercell w =
    (Raised ValueError, w).
Proof.
  intros Hs Hevs. unfold reconstruction_context.
  erewrite bind_returned by by apply get_phonon_no_setup.
  erewrite bind_returned by by apply structure_at_returned.
  by rewrite reshape_some_fails.
Qed.

(** C2. For every q-point, the matrix handed to the reconstruction context
    is the input bundle reshaped in row-major order to [size] by [size],
    with [size] the number of dimensions times the number of primitive
    atoms, and then transposed: its item [(i, j)] is item [j * size + i] of
    the bundle read in row-major order. *)
Theorem eigenvectors_reshaped_then_transposed (renormalized_frequencies : matrix float)
    (eigenvectors : list (ndarray complex)) (structure : addr) (s : Structure)
    (fc_supercell : option (matrix float)) (w : World) :
  let size := number_of_dimensions s * number_of_primitive_atoms s in
  heap w !! structure = Some (StructureObj s) ->
  Forall (fun ev => length (ravel ev) = size * size) eigenvectors ->
  exists phonon dynmat2fc,
    reconstruction_context renormalized_frequencies eigenvectors structure fc_supercell w
      = (Returned (phonon, dynmat2fc), w) /\
    length (dynmat_eigenvectors dynmat2fc) = length eigenvectors /\
    forall q ev, eigenvectors !! q = Some ev ->
      exists R,
        reshape ev size size = Some R /\
        dynmat_eigenvectors dynmat2fc !! q = Some (T size R) /\
        forall i j, i < size -> j < size ->
          item2 (T size R) i j = ravel ev !! (j * size + i).
Proof.
  intros size Hs Hevs. do 2 eexists. split; [by apply reconstruction_context_returned|].
  simpl. split; [by rewrite length_map|].
  intros q ev Hq.
  assert (length (ravel ev) = size * size) as Hlen
    by (eapply (proj1 (Forall_lookup _ _) Hevs); eauto).
  exists (rows_of size size (ravel ev)). split; [by apply reshape_is_Some|].
  split; [by rewrite list_lookup_fmap, Hq|].
  intros i j Hi Hj. apply reshape_T_item; [by apply reshape_is_Some | done | done].
Qed.

(** C3. Every frequency handed to the reconstruction context is the input
    frequency divided by [VaspToTHz], once, and the array keeps its shape. *)
Theorem frequencies_divided_by_VaspToTHz (renormalized_frequencies : matrix float)
    (eigenvectors : list (ndarray complex)) (structure : addr) (s : Structure)
    (fc_supercell : option (matrix float)) (w : World) :
  let size := number_of_dimensions s * number_of_primitive_atoms s in
  heap w !! structure = Some (StructureObj s) ->
  Forall (fun ev => length (ravel ev) = size * size) eigenvectors ->
  exists phonon dynmat2fc,
    reconstruction_context renormalized_frequencies eigenvectors structure fc_supercell w
      = (Returned (phonon, dynmat2fc), w) /\
    Forall2 (Forall2 (fun handed f => handed = (f / VaspToTHz)%float))
      (dynmat_frequencies dynmat2fc) renormalized_frequencies.
Proof.
  intros size Hs Hevs. do 2 eexists. split; [by apply reconstruction_context_returned|].
  simpl. apply Forall2_fmap_l, Forall_Forall2_diag, Forall_forall. intros row _.
  apply Forall2_fmap_l, Forall_Forall2_diag, Forall_forall. done.
Qed.

Lemma reconstructed_force_constants_returned (renormalized_frequencies : matrix float)
    (eigenvectors : list (ndarray complex)) (structure : addr) (s : Structure)
    (fc_supercell : option (matrix float)) (w : World) :
  heap w !! structure = Some (StructureObj s) ->
  Forall (fun ev => length (ravel ev) =
            (number_of_dimensions s * number_of_primitive_atoms s) *
            (number_of_dimensions s * number_of_primitive_atoms s)) eigenvectors ->
  reconstructed_force_constants renormalized_frequencies eigenvectors structure
      fc_supercell w =
    (Returned (bare_phonon s fc_supercell, S (length (heap w))),
     {| heap := heap w ++
          [Array (reconstructed_tensor s fc_supercell renormalized_frequencies eigenvectors);
           ForceConstants (length (heap w)) fc_supercell];
        stdout := stdout w |}).
Proof.
  intros Hs Hevs. unfold reconstructed_force_constants.
  erewrite bind_returned by by apply reconstruction_context_returned.
  simpl. erewrite bind_returned by apply ForceConstants_init_returned.
  reflexivity.
Qed.

Lemma get_renormalized_force_constants_returned (renormalized_frequencies : matrix float)
    (eigenvectors : list (ndarray complex)) (structure : addr) (s : Structure)
    (fc_supercell : option (matrix float)) (symmetrize : bool) (w : World) :
  heap w !! structure = Some (StructureObj s) ->
  Forall (fun ev => length (ravel ev) =
            (number_of_dimensions s * number_of_primitive_atoms s) *
            (number_of_dimensions s * number_of_primitive_atoms s)) eigenvectors ->
  let t := reconstructed_tensor s fc_supercell renormalized_frequencies eigenvectors in
  get_renormalized_force_constants renormalized_frequencies eigenvectors structure
      fc_supercell symmetrize w =
    (Returned (S (length (heap w))),
     {| heap := heap w ++
          [Array (if symmetrize then symmetrized s fc_supercell t else t);
           ForceConstants (length (heap w)) fc_supercell];
        stdout := stdout w ++
          (if symmetrize then ["Symmetrizing force constants"] else []) |}).
Proof.
  intros Hs Hevs t. unfold get_renormalized_force_constants.
  erewrite bind_returned by by apply reconstructed_force_constants_returned.
  destruct symmetrize; simpl.
  - unfold bind, print, ForceConstants_get_array, set_tensor_symmetry_PJ, array_at,
      store, ret; simpl.
    rewrite lookup_new_instance. unfold bind; simpl. rewrite lookup_new_array. simpl.
    do 2 f_equal. rewrite insert_app_r_alt by lia. by rewrite Nat.sub_diag.
  - unfold bind, ret; simpl. by rewrite app_nil_r.
Qed.

(** C4, as the code has it.  For a structure of the store and bundles of
    size * size items each (size = dimensions times primitive atoms) the
    function returns a ForceConstants instance whose supercell field is
    the [fc_supercell] it was called with and whose array holds the tensor
    of the reconstruction, symmetrized when [symmetrize] is set. *)
Theorem returned_instance_fields (renormalized_frequencies : matrix float)
    (eigenvectors : list (ndarray complex)) (structure : addr) (s : Structure)
    (fc_supercell : option (matrix float)) (symmetrize : bool) (w : World) :
  let size := number_of_dimensions s * number_of_primitive_atoms s in
  heap w !! structure = Some (StructureObj s) ->
  Forall (fun ev => length (ravel ev) = size * size) eigenvectors ->
  exists phonon dynmat2fc force_constants a w',
    reconstruction_context renormalized_frequencies eigenvectors structure fc_supercell w
      = (Returned (phonon, dynmat2fc), w) /\
    get_renormalized_force_constants renormalized_frequencies eigenvectors structure
      fc_supercell symmetrize w = (Returned force_constants, w') /\
    heap w' !! force_constants = Some (ForceConstants a fc_supercell) /\
    heap w' !! a =
      Some (Array
        (if symmetrize then
           tensor_symmetry_PJ (DynmatToForceConstants_get_force_constants dynmat2fc)
             (cell (get_supercell phonon)) (scaled_positions (get_supercell phonon))
             (symmetry phonon)
         else DynmatToForceConstants_get_force_constants dynmat2fc)).
Proof.
  intros size Hs Hevs. do 5 eexists.
  split; [by apply reconstruction_context_returned|].
  split; [by apply get_renormalized_force_constants_returned|].
  simpl. split; [apply lookup_new_instance|].
  rewrite lookup_new_array. by destruct symmetrize.
Qed.

(** [set_supercell] changes the supercell field of its instance and
    nothing else in the store. *)
Lemma ForceConstants_set_supercell_returned (self a : addr)
    (old supercell : option (matrix float)) (w : World) :
  heap w !! self = Some (ForceConstants a old) ->
  ForceConstants_set_supercell self supercell w =
    (Returned tt,
     {| heap := <[self := ForceConstants a supercell]> (heap w); stdout := stdout w |}).
Proof. unfold ForceConstants_set_supercell. by intros ->. Qed.

(** C7, as the code has it.  [set_supercell] leaves the array of its
    instance, every array in the store and every other object as they are.
    [get_renormalized_force_constants] leaves every object that was in the
    store as it is, builds one array and one instance, and returns that
    instance; without [symmetrize] the array is as it was built; with
    [symmetrize] the tensor in that same array is overwritten by the
    symmetrized tensor, and no further instance is made. *)
Theorem symmetrization_is_in_place (renormalized_frequencies : matrix float)
    (eigenvectors : list (ndarray complex)) (structure : addr) (s : Structure)
    (fc_supercell : option (matrix float)) (symmetrize : bool) (w : World) :
  let size := number_of_dimensions s * number_of_primitive_atoms s in
  heap w !! structure = Some (StructureObj s) ->
  Forall (fun ev => length (ravel ev) = size * size) eigenvectors ->
  (forall self a old supercell,
      heap w !! self = Some (ForceConstants a old) ->
      exists w', ForceConstants_set_supercell self supercell w = (Returned tt, w') /\
        heap w' !! self = Some (ForceConstants a supercell) /\
        forall b, b <> self -> heap w' !! b = heap w !! b) /\
  exists phonon built a t w1 w2,
    reconstructed_force_constants renormalized_frequencies eigenvectors structure
      fc_supercell w = (Returned (phonon, built), w1) /\
    heap w1 !! built = Some (ForceConstants a fc_supercell) /\
    heap w1 !! a = Some (Array t) /\
    get_renormalized_force_constants renormalized_frequencies eigenvectors structure
      fc_supercell symmetrize w = (Returned built, w2) /\
    heap w2 !! built = Some (ForceConstants a fc_supercell) /\
    heap w2 !! a =
      Some (Array (if symmetrize then
                     tensor_symmetry_PJ t (cell (get_supercell phonon))
                       (scaled_positions (get_supercell phonon)) (symmetry phonon)
                   else t)) /\
    length (heap w2) = length (heap w1) /\
    length (heap w1) = length (heap w) + 2 /\
    (forall b, b <> a -> heap w2 !! b = heap w1 !! b) /\
    (forall b o, heap w !! b = Some o -> heap w2 !! b = Some o).
Proof.
  intros size Hs Hevs. split.
  - intros self a old supercell Hself. eexists.
    split; [by eapply ForceConstants_set_supercell_returned|]. simpl. split.
    + apply list_lookup_insert_eq. by eapply lookup_lt_Some.
    + intros b Hb. by apply list_lookup_insert_ne.
  - do 6 eexists.
    split; [by apply reconstructed_force_constants_returned|]. simpl.
    split; [apply lookup_new_instance|].
    split; [apply lookup_new_array|].
    split; [by apply get_renormalized_force_constants_returned|]. simpl.
    split; [apply lookup_new_instance|].
    split; [rewrite lookup_new_array; by destruct symmetrize|].
    split; [by rewrite !length_app|].
    split; [rewrite length_app; simpl; lia|].
    split.
    + intros b Hb. destruct (decide (b < length (heap w))) as [Hlt|Hge].
      * by rewrite !lookup_app_l.
      * rewrite !lookup_app_r by lia.
        destruct (b - length (heap w)) as [|[|n]] eqn:Hn; [lia|done|done].
    + intros b o Hb. rewrite lookup_app_l; [done|]. by eapply lookup_lt_Some.
Qed.

End Reconstruction.

(** *** On a two-mode structure with two q-points *)

Section ReconstructionExample.
#[local] Existing Instance Example.lib.

Lemma eigenvectors_reshaped_then_transposed_witness :
  exists phonon dynmat2fc,
    reconstruction_context Example.frequencies Example.eigenvectors 0
      (Some (identity 2)) Example.world = (Returned (phonon, dynmat2fc), Example.world) /\
    length (dynmat_eigenvectors dynmat2fc) = length Example.eigenvectors /\
    forall q ev, Example.eigenvectors !! q = Some ev ->
      exists R,
        reshape ev 2 2 = Some R /\
        dynmat_eigenvectors dynmat2fc !! q = Some (T 2 R) /\
        forall i j, i < 2 -> j < 2 -> item2 (T 2 R) i j = ravel ev !! (j * 2 + i).
Proof.
  apply (eigenvectors_reshaped_then_transposed Example.frequencies Example.eigenvectors
           0 Example.structure (Some (identity 2)) Example.world).
  - reflexivity.
  - repeat constructor.
Defined.

(** The first bundle, [[1, 2], [3, 4]] in row-major order, is handed over
    as [[1, 3], [2, 4]]. *)
Lemma handed_eigenvectors_example :
  exists phonon dynmat2fc,
    reconstruction_context Example.frequencies Example.eigenvectors 0
      (Some (identity 2)) Example.world = (Returned (phonon, dynmat2fc), Example.world) /\
    dynmat_eigenvectors dynmat2fc !! 0 =
      Some [[Example.c 1; Example.c 3]; [Example.c 2; Example.c 4]].
Proof. do 2 eexists. split; [lazy; reflexivity | reflexivity]. Qed.

Lemma frequencies_divided_by_VaspToTHz_witness :
  exists phonon dynmat2fc,
    reconstruction_context Example.frequencies Example.eigenvectors 0
      (Some (identity 2)) Example.world = (Returned (phonon, dynmat2fc), Example.world) /\
    Forall2 (Forall2 (fun handed f => handed = (f / VaspToTHz)%float))
      (dynmat_frequencies dynmat2fc) Example.frequencies.
Proof.
  apply (frequencies_divided_by_VaspToTHz Example.frequencies Example.eigenvectors
           0 Example.structure (Some (identity 2)) Example.world).
  - reflexivity.
  - repeat constructor.
Defined.

(** The arrangement of [obtain_eigenvectors_and_frequencies] followed by
    the reshape and the transposition gives back the matrix phonopy
    returned. *)
Lemma arrangement_undone_example :
  let eigenvectors := [[Example.c 1; Example.c 2]; [Example.c 3; Example.c 4]] in
  arrange_ev 1 2 eigenvectors ≫= (fun ev => T 2 <$> reshape ev 2 2) = Some eigenvectors.
Proof. reflexivity. Qed.

Lemma returned_instance_fields_witness :
  exists phonon dynmat2fc force_constants a w',
    reconstruction_context Example.frequencies Example.eigenvectors 0
      (Some (identity 2)) Example.world = (Returned (phonon, dynmat2fc), Example.world) /\
    get_renormalized_force_constants Example.frequencies Example.eigenvectors 0
      (Some (identity 2)) true Example.world = (Returned force_constants, w') /\
    heap w' !! force_constants = Some (ForceConstants a (Some (identity 2))) /\
    heap w' !! a =
      Some (Array
        (tensor_symmetry_PJ (DynmatToForceConstants_get_force_constants dynmat2fc)
           (cell (get_supercell phonon)) (scaled_positions (get_supercell phonon))
           (symmetry phonon))).
Proof.
  apply (returned_instance_fields Example.frequencies Example.eigenvectors
           0 Example.structure (Some (identity 2)) true Example.world).
  - reflexivity.
  - repeat constructor.
Defined.

Lemma symmetrization_is_in_place_witness :
  exists phonon built a t w1 w2,
    reconstructed_force_constants Example.frequencies Example.eigenvectors 0
      (Some (identity 2)) Example.world = (Returned (phonon, built), w1) /\
    heap w1 !! a = Some (Array t) /\
    get_renormalized_force_constants Example.frequencies Example.eigenvectors 0
      (Some (identity 2)) true Example.world = (Returned built, w2) /\
    heap w2 !! a =
      Some (Array (tensor_symmetry_PJ t (cell (get_supercell phonon))
                     (scaled_positions (get_supercell phonon)) (symmetry phonon))).
Proof.
  destruct (symmetrization_is_in_place Example.frequencies Example.eigenvectors
              0 Example.structure (Some (identity 2)) true Example.world)
    as [_ (phonon & built & a & t & w1 & w2 & H1 & _ & H3 & H4 & _ & H6 & _)].
  - reflexivity.
  - repeat constructor.
  - exists phonon, built, a, t, w1, w2. auto.
Defined.

(** A bundle of one item for a structure of two modes: numpy's reshape
    raises ValueError and no instance is returned. *)
Lemma bundle_of_wrong_size_is_rejected : ~ returns_for_every_input.
Proof.
  intros Hclaim.
  destruct (Hclaim Example.frequencies [Rows [Item (Example.c 1)]] 0 Example.structure
              None false Example.world eq_refl) as (force_constants & a & w' & Hrun & _).
  vm_compute in Hrun. discriminate.
Qed.

Lemma bundle_of_wrong_size_raises :
  get_renormalized_force_constants Example.frequencies [Rows [Item (Example.c 1)]] 0
    None false Example.world = (Raised ValueError, Example.world).
Proof. reflexivity. Qed.

(** With [symmetrize] set, the array of the instance built at line 280 no
    longer holds the tensor it was built with, and the instance returned is
    that same instance. *)
Lemma tensor_is_mutated_in_place : ~ never_mutated_in_place.
Proof.
  intros Hclaim.
  destruct (Hclaim Example.frequencies Example.eigenvectors 0 (Some (identity 2)) true
              Example.world
              (snd (reconstructed_force_constants Example.frequencies
                      Example.eigenvectors 0 (Some (identity 2)) Example.world))
              (snd (get_renormalized_force_constants Example.frequencies
                      Example.eigenvectors 0 (Some (identity 2)) true Example.world))
              (bulk_of Example.structure, identity 2) 2 2 1
              (reconstructed_tensor Example.structure (Some (identity 2))
                 Example.frequencies Example.eigenvectors)
              eq_refl eq_refl eq_refl eq_refl) as [Harray Hnew].
  - apply (f_equal (Example.item_0_1_below 0.14)) in Harray.
    vm_compute in Harray. discriminate.
Qed.

(** The same run: the instance returned is the one built before the
    symmetrization, and the store has not grown since. *)
Lemma symmetrized_instance_is_the_built_one :
  fst (get_renormalized_force_constants Example.frequencies Example.eigenvectors 0
         (Some (identity 2)) true Example.world) = Returned 2 /\
  snd <$> returned_value (fst (reconstructed_force_constants Example.frequencies
         Example.eigenvectors 0 (Some (identity 2)) Example.world)) = Some 2 /\
  length (heap (snd (get_renormalized_force_constants Example.frequencies
         Example.eigenvectors 0 (Some (identity 2)) true Example.world))) = 3.
Proof. repeat split. Qed.

End ReconstructionExample.

(** ** Equivalent q-points *)

(** Equality of floats, and of tuples of floats, does not depend on the
    side an operand is on. *)
Lemma SFeqb_sym (a b : SpecFloat.spec_float) : SpecFloat.SFeqb a b = SpecFloat.SFeqb b a.
Proof.
  unfold SpecFloat.SFeqb, SpecFloat.SFcompare.
  destruct a as [[|]|[|]| |[|] m1 e1], b as [[|]|[|]| |[|] m2 e2]; try reflexivity.
  - rewrite (Z.compare_antisym e1 e2). destruct (e1 ?= e2)%Z; simpl; try reflexivity.
    rewrite !Pos.compare_cont_spec. simpl.
    rewrite (Pos.compare_antisym m1 m2). by destruct (m1 ?= m2)%positive.
  - rewrite (Z.compare_antisym e1 e2). destruct (e1 ?= e2)%Z; simpl; try reflexivity.
    rewrite !Pos.compare_cont_spec. simpl.
    rewrite (Pos.compare_antisym m1 m2). by destruct (m1 ?= m2)%positive.
Qed.

Lemma float_eqb_sym (x y : float) : (x =? y)%float = (y =? x)%float.
Proof. rewrite !FloatAxioms.eqb_spec. apply SFeqb_sym. Qed.

Lemma tuple_eqb_sym (a b : list float) : tuple_eqb a b = tuple_eqb b a.
Proof.
  revert b; induction a as [|x a IH]; intros [|y b]; simpl; try reflexivity.
  by rewrite float_eqb_sym, IH.
Qed.

Lemma set_add_no_row_twice (acc : matrix float) (row : list float) :
  no_row_twice acc -> no_row_twice (set_add acc row).
Proof.
  intros Hacc. unfold set_add.
  destruct (existsb (fun r => tuple_eqb r row) acc) eqn:Hin; [exact Hacc|].
  assert (forall k r, acc !! k = Some r -> tuple_eqb r row = false) as Hfresh.
  { intros k r Hk. destruct (tuple_eqb r row) eqn:Hr; [|done].
    assert (existsb (fun r => tuple_eqb r row) acc = true) as Hex; [|congruence].
    apply existsb_exists. exists r. split; [|done].
    apply list_elem_of_In, list_elem_of_lookup. eauto. }
  intros i j r1 r2 Hi Hj Heq.
  destruct (decide (i < length acc)) as [Hli|Hli], (decide (j < length acc)) as [Hlj|Hlj].
  - rewrite lookup_app_l in Hi, Hj by done. eauto.
  - rewrite lookup_app_l in Hi by done. rewrite lookup_app_r in Hj by lia.
    destruct (j - length acc) as [|n]; [|done]. injection Hj as <-.
    rewrite (Hfresh _ _ Hi) in Heq. done.
  - rewrite lookup_app_l in Hj by done. rewrite lookup_app_r in Hi by lia.
    destruct (i - length acc) as [|n]; [|done]. injection Hi as <-.
    rewrite tuple_eqb_sym, (Hfresh _ _ Hj) in Heq. done.
  - apply lookup_lt_Some in Hi, Hj. rewrite length_app in Hi, Hj. simpl in *. lia.
Qed.

Lemma fold_set_add_no_row_twice (rows acc : matrix float) :
  no_row_twice acc -> no_row_twice (fold_left set_add rows acc).
Proof.
  revert acc; induction rows as [|row rows IH]; intros acc Hacc; simpl; [done|].
  by apply IH, set_add_no_row_twice.
Qed.

Lemma set_of_rows_no_row_twice (rows : matrix float) : no_row_twice (set_of_rows rows).
Proof.
  apply fold_set_add_no_row_twice. intros i j r1 r2 Hi. by rewrite lookup_nil in Hi.
Qed.

(** The set holds rows of the list only. *)
Lemma fold_set_add_Forall (P : list float -> Prop) (rows acc : matrix float) :
  Forall P acc -> Forall P rows -> Forall P (fold_left set_add rows acc).
Proof.
  revert acc; induction rows as [|row rows IH]; intros acc Hacc Hrows; simpl; [done|].
  inversion Hrows as [|? ? Hrow Hrest]; subst. apply IH; [|done].
  unfold set_add. destruct (existsb _ acc); [done|].
  apply Forall_app. split; [done|]. by constructor.
Qed.

Lemma set_of_rows_Forall (P : list float -> Prop) (rows : matrix float) :
  Forall P rows -> Forall P (set_of_rows rows).
Proof. intros. by apply fold_set_add_Forall. Qed.

(** Every row of the list is equal to a row of the set. *)
Lemma fold_set_add_covers (rows acc : matrix float) (row : list float) :
  tuple_eqb row row = true ->
  (row ∈ rows \/ exists r, r ∈ acc /\ tuple_eqb r row = true) ->
  exists r, r ∈ fold_left set_add rows acc /\ tuple_eqb r row = true.
Proof.
  intros Hrefl. revert acc; induction rows as [|x rows IH]; intros acc [Hin|Hacc]; simpl.
  - by apply elem_of_nil in Hin.
  - done.
  - apply IH. apply elem_of_cons in Hin as [->|Hin]; [right|by left].
    unfold set_add. destruct (existsb (fun r => tuple_eqb r x) acc) eqn:Hex.
    + apply existsb_exists in Hex as (r & Hr & Heq). exists r.
      split; [by apply list_elem_of_In|done].
    + exists x. split; [|done]. apply elem_of_app. right. by apply list_elem_of_singleton.
  - apply IH. right. destruct Hacc as (r & Hr & Heq). exists r. split; [|done].
    unfold set_add. destruct (existsb _ acc); [done|]. apply elem_of_app. by left.
Qed.

(** The order of iteration does not bring a row back twice. *)
Lemma no_row_twice_Permutation (l k : matrix float) :
  l ≡ₚ k -> no_row_twice k -> no_row_twice l.
Proof.
  intros Hperm Hk. apply Permutation_inj in Hperm as [_ (f & Hf & Hlookup)].
  intros i j r1 r2 Hi Hj Heq. rewrite Hlookup in Hi, Hj.
  apply Hf. eauto.
Qed.

Section EquivalentQPoints.
Context {lib : PhonopyLib} {rt : Runtime}.

Lemma all_nonnegative_Forall (v : list float) :
  all_nonnegative v = true -> Forall (fun x => (0 <=? x)%float = true) v.
Proof.
  unfold all_nonnegative. intros Hv. apply Forall_forall. intros x Hx.
  apply (proj1 (forallb_forall _ _) Hv). by apply list_elem_of_In.
Qed.

(** An image is computed or numpy raises; the store is not touched. *)
Lemma q_point_image_outcome (q_point : list float) (primitive_matrix : matrix float)
    (operation_matrix : matrix Z) (w : World) :
  exists o, q_point_image q_point primitive_matrix operation_matrix w = (o, w) /\
            o <> Exited.
Proof.
  unfold q_point_image, or_raise, bind, ret, raise.
  destruct (np_linalg_inv primitive_matrix) as [p_inv|]; [|by eexists].
  destruct (np_dot p_inv _) as [m1|]; [|by eexists].
  destruct (np_dot m1 primitive_matrix) as [m2|]; [|by eexists].
  destruct (np_dot_vec q_point m2) as [v|]; by eexists.
Qed.

(** The loop appends images without a negative component, and only
    those. *)
Lemma q_points_loop_outcome (q_point : list float) (primitive_matrix : matrix float)
    (operations : list (matrix Z)) (tot_points : matrix float) (w : World) :
  exists o,
    q_points_loop q_point primitive_matrix operations tot_points w = (o, w) /\
    match o with
    | Returned tot_points' =>
        exists images, tot_points' = tot_points ++ images /\
                       Forall (fun r => all_nonnegative r = true) images
    | Raised _ => True
    | Exited => False
    end.
Proof.
  revert tot_points; induction operations as [|op ops IH]; intros tot_points; simpl.
  - eexists. split; [reflexivity|]. exists []. by rewrite app_nil_r.
  - destruct (q_point_image_outcome q_point primitive_matrix op w) as (o & Ho & Hexit).
    unfold bind at 1. rewrite Ho. destruct o as [q_point_test|e|]; [|by eexists|done].
    destruct (all_nonnegative q_point_test) eqn:Hq.
    + destruct (IH (tot_points ++ [q_point_test])) as (o & Hloop & Hspec).
      exists o. split; [done|]. destruct o as [tot'|e|]; [|done|done].
      destruct Hspec as (images & -> & Himages). exists (q_point_test :: images).
      split; [by rewrite <- app_assoc|]. by constructor.
    + apply IH.
Qed.

(** C10. Every q-point that [get_equivalent_q_points_by_symmetry] returns
    has only non-negative components, and no two rows of the result are
    equal. *)
Theorem equivalent_q_points_nonnegative_distinct (q_point : list float)
    (structure : addr) (w : World) :
  exists o,
    get_equivalent_q_points_by_symmetry q_point structure w = (o, w) /\
    match o with
    | Returned rows =>
        Forall (Forall (fun x => (0 <=? x)%float = true)) rows /\
        (forall i j r1 r2,
            rows !! i = Some r1 -> rows !! j = Some r2 -> i <> j ->
            tuple_eqb r1 r2 = false)
    | Raised _ => True
    | Exited => False
    end.
Proof.
  unfold get_equivalent_q_points_by_symmetry, structure_at.
  unfold bind at 1.
  destruct (heap w !! structure) as [[| | |s]|]; try by eexists.
  destruct (q_points_loop_outcome q_point (primitive_matrix s)
              (get_reciprocal_operations (Symmetry_init (bulk_of s))) [] w)
    as (o & Hloop & Hspec).
  unfold bind. rewrite Hloop. destruct o as [tot_points|e|]; [|by eexists|done].
  destruct Hspec as (images & -> & Himages). simpl.
  unfold vstack, ret, raise.
  destruct (set_order (set_of_rows images)) as [|r rows] eqn:Hset; [by eexists|].
  destruct (forallb _ (r :: rows)); [|by eexists].
  eexists. split; [reflexivity|]. rewrite <- Hset. split.
  - rewrite set_order_perm. apply set_of_rows_Forall.
    eapply Forall_impl; [exact Himages|]. apply all_nonnegative_Forall.
  - intros i j r1 r2 Hi Hj Hij.
    destruct (tuple_eqb r1 r2) eqn:Heq; [|done]. destruct Hij.
    eapply (no_row_twice_Permutation _ _ (set_order_perm _)); eauto.
    apply set_of_rows_no_row_twice.
Qed.

End EquivalentQPoints.

Section EquivalentQPointsExample.
#[local] Existing Instance Example.lib.
#[local] Existing Instance Example.rt.

(** The q-point (1/2, 0, 1/4) under the identity, the inversion, the
    exchange of the first two axes and the identity once more: the image by
    the inversion is dropped and the second copy of the q-point is not
    kept. *)
Lemma equivalent_q_points_example :
  get_equivalent_q_points_by_symmetry [0.5; 0; 0.25]%float 0 Example.world =
    (Returned [[0; 0.5; 0.25]; [0.5; 0; 0.25]]%float, Example.world).
Proof. vm_compute. reflexivity. Qed.

(** A q-point with a negative component whose images all have one: there
    is nothing to stack. *)
Lemma equivalent_q_points_none_example :
  get_equivalent_q_points_by_symmetry [0.5; -0.5; 0.25]%float 0 Example.world =
    (Raised ValueError, Example.world).
Proof. vm_compute. reflexivity. Qed.

End EquivalentQPointsExample.

(** ** The QHA extraction script *)

Section QhaOrder.
Context {lib : PhonopyLib} {rt : Runtime} {env : ScriptEnv}.

(** The force-constants files are read one after the other, and their
    arrays are kept in the order of the file names. *)
Lemma read_force_constants_returned (fc_filenames : list string)
    (fc_supercell : matrix float) (w : World) :
  exists w',
    read_force_constants fc_filenames fc_supercell w =
      (Returned (map parse_FORCE_CONSTANTS fc_filenames), w') /\
    stdout w' = stdout w.
Proof.
  revert w; induction fc_filenames as [|filename rest IH]; intros w; simpl.
  - by eexists.
  - erewrite bind_returned by apply get_force_constants_from_file_returned.
    unfold bind at 1, ForceConstants_get_array. simpl. rewrite lookup_new_instance.
    unfold bind at 1, array_at. simpl. rewrite lookup_new_array.
    match goal with |- context [bind _ _ ?w1] =>
      destruct (IH w1) as (w' & Hrest & Hout) end.
    erewrite bind_returned by exact Hrest.
    eexists. split; [reflexivity|]. rewrite Hout. simpl. by rewrite app_nil_r.
Qed.

(** Whatever the order of the volumes in the energy-volume file, a run
    hands the thermal series to PhonopyQHA rearranged by [sort_index], and
    the force constants to the interpolator in the order of the file names:
    they are not rearranged. *)
Lemma qha_extract_series (args : Args) (w w' : World) (run : Run) :
  qha_extract args w = (Returned run, w') ->
  exists volumes free_energies,
    transpose (np_loadtxt (ev args)) !! 0 = Some volumes /\
    free_energies =
      map (fun f => map free_energy (yaml_thermal_properties f))
          (flat_map sorted_glob (tp args)) /\
    take_along volumes (argsort volumes) = Some (qha_volumes (phonopy_qha run)) /\
    T_columns free_energies (argsort volumes) = Some (qha_free_energy (phonopy_qha run)) /\
    interp_x (f_temperature run) = qha_volumes (phonopy_qha run) /\
    interp_y (f_temperature run) =
      map (fun f => np_T (parse_FORCE_CONSTANTS f)) (flat_map sorted_glob (fc args)).
Proof.
  unfold qha_extract. intros Hrun.
  destruct (transpose (np_loadtxt (ev args)) !! 0) as [volumes|] eqn:Hv; [|done].
  unfold bind at 1 in Hrun. simpl in Hrun.
  destruct (transpose (np_loadtxt (ev args)) !! 1) as [energies|]; [|done].
  unfold bind at 1 in Hrun. simpl in Hrun.
  destruct (one_dimensional (np_loadtxt (ev args))); [done|].
  destruct (take_along volumes (argsort volumes)) as [sorted|] eqn:Hsorted; [|done].
  unfold bind at 1 in Hrun. simpl in Hrun.
  destruct (take_along energies (argsort volumes)) as [sorted_e|]; [|done].
  unfold bind at 1 in Hrun. simpl in Hrun.
  destruct (T_columns _ (argsort volumes)) as [fe|] eqn:Hfe in Hrun; [|done].
  unfold bind at 1 in Hrun. simpl in Hrun.
  destruct (T_columns _ (argsort volumes)) as [en|] in Hrun; [|done].
  unfold bind at 1 in Hrun. simpl in Hrun.
  destruct (T_columns _ (argsort volumes)) as [cv|] in Hrun; [|done].
  unfold bind at 1 in Hrun. simpl in Hrun.
  destruct (interp1d_call _ (t args)) as [target_volume|] in Hrun; [|done].
  unfold bind at 1 in Hrun. simpl in Hrun.
  unfold bind at 1 in Hrun.
  destruct (read_supercell_phonon (input_file args) w) as [[fc_supercell| |] w0]; [|done..].
  destruct (read_force_constants_returned (flat_map sorted_glob (fc args))
              fc_supercell w0) as (w1 & Hread & _).
  unfold bind at 1 in Hrun. rewrite Hread in Hrun.
  unfold bind at 1 in Hrun.
  destruct (interp1d_call_array _ target_volume) as [fc_t|] in Hrun; [|done].
  unfold bind, print, ret in Hrun. simpl in Hrun. injection Hrun as <- _.
  eexists volumes, _. simpl. repeat split; try done.
  by rewrite map_map.
Qed.

End QhaOrder.

Section QhaExample.
#[local] Existing Instance Example.lib.
#[local] Existing Instance Example.rt.
#[local] Existing Instance Example.env.

(** C6, on an energy-volume file that lists the volumes 30, 10, 20.  The
    volumes reach the interpolator sorted, 10, 20, 30, and the free energies
    of the three thermal-properties files reach PhonopyQHA rearranged the
    same way; the tensors of the three force-constants files reach the
    interpolator as they were read, so that the tensor of the first file,
    whose volume is 30, goes with the volume 10. *)
Theorem force_constants_not_sorted_with_volumes :
  exists run w',
    qha_extract Example.args Example.world = (Returned run, w') /\
    transpose (np_loadtxt "e-v.dat") !! 0 = Some [30; 10; 20]%float /\
    argsort [30; 10; 20]%float = [1; 2; 0] /\
    interp_x (f_temperature run) = [10; 20; 30]%float /\
    qha_free_energy (phonopy_qha run) !! 0 =
      take_along (map (fun f => float_of_nat (String.length f) + 0.5)%float
                      ["tp-0"; "tp-10"; "tp-200"]) [1; 2; 0] /\
    interp_y (f_temperature run) =
      map parse_FORCE_CONSTANTS ["fc-0"; "fc-10"; "fc-200"] /\
    take_along (map parse_FORCE_CONSTANTS ["fc-0"; "fc-10"; "fc-200"]) [1; 2; 0] =
      Some (map parse_FORCE_CONSTANTS ["fc-10"; "fc-200"; "fc-0"]) /\
    interp_y (f_temperature run) !! 0 <>
      Some (parse_FORCE_CONSTANTS "fc-10").
Proof.
  do 2 eexists. split; [lazy; reflexivity|].
  repeat split; try reflexivity.
  intros Heq. apply (f_equal (Example.item_0_0_below 4.5)) in Heq.
  vm_compute in Heq. discriminate.
Qed.

End QhaExample.

(** * Further properties of phonopy_link.py *)

(** A sequence of two steps returns only if both do. *)
Lemma bind_returned_inv {lib : PhonopyLib} {A B} (c : Py A) (k : A -> Py B)
    (w w' : World) (b : B) :
  bind c k w = (Returned b, w') ->
  exists a w1, c w = (Returned a, w1) /\ k a w1 = (Returned b, w').
Proof.
  unfold bind. destruct (c w) as [[a| |] w1]; try discriminate. eauto.
Qed.

(** ** The two container classes *)

Section Containers.
Context {lib : PhonopyLib}.

(** X1. A new ForceConstants instance gives back, through its getters, the
    tensor and the supercell it was built with; its array is a new object
    of the store; [set_supercell] changes what [get_supercell] returns and
    leaves the array and its tensor alone. *)
Theorem ForceConstants_getters_after_init (t : Tensor)
    (supercell : option (matrix float)) (w : World) :
  exists fc a w1,
    ForceConstants_init t supercell w = (Returned fc, w1) /\
    length (heap w) <= a /\
    ForceConstants_get_array fc w1 = (Returned a, w1) /\
    array_at a w1 = (Returned t, w1) /\
    ForceConstants_get_supercell fc w1 = (Returned supercell, w1) /\
    forall supercell', exists w2,
      ForceConstants_set_supercell fc supercell' w1 = (Returned tt, w2) /\
      ForceConstants_get_supercell fc w2 = (Returned supercell', w2) /\
      ForceConstants_get_array fc w2 = (Returned a, w2) /\
      array_at a w2 = (Returned t, w2).
Proof.
  exists (S (length (heap w))), (length (heap w)). eexists.
  split; [apply ForceConstants_init_returned|].
  split; [lia|].
  unfold ForceConstants_get_array, ForceConstants_get_supercell, array_at,
    ForceConstants_set_supercell, store. simpl.
  rewrite lookup_new_instance, lookup_new_array.
  repeat split. intros supercell'. eexists. split; [reflexivity|]. simpl.
  rewrite list_lookup_insert_eq by (rewrite length_app; simpl; lia).
  rewrite list_lookup_insert_ne by lia. rewrite lookup_new_array. done.
Qed.

(** X2. The same for ForceSets: the getters give back what the constructor
    was given, and [set_supercell] changes the supercell only. *)
Theorem ForceSets_getters_after_init (force_sets : Dataset)
    (supercell : option (matrix float)) (w : World) :
  exists fs w1,
    ForceSets_init force_sets supercell w = (Returned fs, w1) /\
    ForceSets_get_dict fs w1 = (Returned force_sets, w1) /\
    ForceSets_get_supercell fs w1 = (Returned supercell, w1) /\
    (forall b o, heap w !! b = Some o -> heap w1 !! b = Some o) /\
    forall supercell', exists w2,
      ForceSets_set_supercell fs supercell' w1 = (Returned tt, w2) /\
      ForceSets_get_supercell fs w2 = (Returned supercell', w2) /\
      ForceSets_get_dict fs w2 = (Returned force_sets, w2).
Proof.
  exists (length (heap w)). eexists.
  split; [apply ForceSets_init_returned|].
  unfold ForceSets_get_dict, ForceSets_get_supercell, ForceSets_set_supercell, store.
  simpl. rewrite lookup_app_r by lia. rewrite Nat.sub_diag. simpl.
  repeat split.
  - intros b o Hb. rewrite lookup_app_l; [done|]. by eapply lookup_lt_Some.
  - intros supercell'. eexists. split; [reflexivity|]. simpl.
    rewrite list_lookup_insert_eq by (rewrite length_app; simpl; lia). done.
Qed.

End Containers.

(** ** get_phonon *)

Section GetPhonon.
Context {lib : PhonopyLib}.

(** [get_phonon] after its first lines: the phonon object is built, the
    warning is printed when [NAC] is set, and the force data is still to be
    set up. *)
Lemma get_phonon_after_nac (structure : addr) (s : Structure) (NAC setup_forces : bool)
    (custom_supercell : option (matrix float)) (w : World) :
  heap w !! structure = Some (StructureObj s) ->
  get_phonon structure NAC setup_forces custom_supercell w =
    (let phonon := phonon_with_nac s NAC custom_supercell in
     if setup_forces then
       match structure_force_constants s with
       | Some fc =>
           a <- ForceConstants_get_array fc ;;
           t <- array_at a ;;
           ret (set_force_constants phonon t)
       | None =>
           match structure_force_sets s with
           | Some fs =>
               d <- ForceSets_get_dict fs ;;
               let phonon := set_displacement_dataset phonon d in
               let phonon := produce_force_constants phonon "svd" in
               sc <- ForceSets_get_supercell fs ;;
               fc <- ForceConstants_init (get_force_constants phonon) sc ;;
               Structure_set_force_constants structure fc ;;;
               ret phonon
           | None =>
               print "No force sets/constants available!" ;;;
               exit
           end
       end
     else ret phonon)
      {| heap := heap w;
         stdout := stdout w ++ (if NAC then [nac_warning] else []) |}.
Proof.
  intros Hs. unfold get_phonon.
  erewrite bind_returned by by apply structure_at_returned.
  unfold phonon_with_nac, bare_phonon.
  destruct NAC; unfold bind at 1, print, ret; simpl.
  - by destruct custom_supercell.
  - rewrite app_nil_r. destruct w. by destruct custom_supercell.
Qed.

(** X3. With force constants on the structure, [get_phonon] hands their tensor
    to the phonon object and changes nothing in the store.  The force sets
    of the structure are not looked at, and the supercell stored in the
    instance is not used: the supercell of the phonon object is the custom
    one or the structure's. *)
Theorem get_phonon_prefers_force_constants (structure fc a : addr) (s : Structure)
    (supercell custom_supercell : option (matrix float)) (t : Tensor) (NAC : bool)
    (w : World) :
  heap w !! structure = Some (StructureObj s) ->
  structure_force_constants s = Some fc ->
  heap w !! fc = Some (ForceConstants a supercell) ->
  heap w !! a = Some (Array t) ->
  get_phonon structure NAC true custom_supercell w =
    (Returned (set_force_constants (phonon_with_nac s NAC custom_supercell) t),
     {| heap := heap w;
        stdout := stdout w ++ (if NAC then [nac_warning] else []) |}).
Proof.
  intros Hs Hfc Hinst Harr. rewrite (get_phonon_after_nac _ s) by done.
  cbv zeta. rewrite Hfc.
  unfold bind, ForceConstants_get_array, array_at, ret. simpl.
  rewrite Hinst. simpl. by rewrite Harr.
Qed.

(** X4. With force sets only, [get_phonon] produces the force constants, wraps
    them in a new ForceConstants instance that takes over the supercell of
    the force sets, and stores that instance in the structure; the force
    sets stay.  A later call finds the instance and adds nothing to the
    store. *)
Theorem get_phonon_caches_force_constants (structure fs : addr) (s : Structure)
    (d : Dataset) (supercell custom_supercell : option (matrix float)) (NAC : bool)
    (w : World) :
  heap w !! structure = Some (StructureObj s) ->
  structure_force_constants s = None ->
  structure_force_sets s = Some fs ->
  heap w !! fs = Some (ForceSets d supercell) ->
  exists phonon fc a s1 w1,
    get_phonon structure NAC true custom_supercell w = (Returned phonon, w1) /\
    phonon = produce_force_constants
               (set_displacement_dataset (phonon_with_nac s NAC custom_supercell) d) "svd" /\
    heap w1 !! structure = Some (StructureObj s1) /\
    structure_force_constants s1 = Some fc /\
    structure_force_sets s1 = Some fs /\
    heap w1 !! fs = Some (ForceSets d supercell) /\
    length (heap w) <= a /\ length (heap w) <= fc /\
    heap w1 !! fc = Some (ForceConstants a supercell) /\
    heap w1 !! a = Some (Array (get_force_constants phonon)) /\
    forall custom_supercell',
      get_phonon structure false true custom_supercell' w1 =
        (Returned (set_force_constants (phonon_with_nac s1 false custom_supercell')
                     (get_force_constants phonon)), w1).
Proof.
  intros Hs Hfc Hfs Hsets.
  assert (structure < length (heap w)) as Hlt by by eapply lookup_lt_Some.
  set (phonon := produce_force_constants
                   (set_displacement_dataset (phonon_with_nac s NAC custom_supercell) d)
                   "svd").
  set (s1 := {| atomic_elements := atomic_elements s;
                structure_scaled_positions := structure_scaled_positions s;
                structure_cell := structure_cell s;
                primitive_matrix := primitive_matrix s;
                supercell_phonon := supercell_phonon s;
                number_of_dimensions := number_of_dimensions s;
                number_of_primitive_atoms := number_of_primitive_atoms s;
                number_of_atoms := number_of_atoms s;
                structure_force_constants := Some (S (length (heap w)));
                structure_force_sets := structure_force_sets s |}).
  set (w1 := {| heap := <[structure := StructureObj s1]>
                          (heap w ++ [Array (get_force_constants phonon);
                                      ForceConstants (length (heap w)) supercell]);
                stdout := stdout w ++ (if NAC then [nac_warning] else []) |}).
  exists phonon, (S (length (heap w))), (length (heap w)), s1, w1.
  assert (heap w1 !! structure = Some (StructureObj s1)) as Hs1.
  { simpl. apply list_lookup_insert_eq. rewrite length_app. simpl. lia. }
  assert (heap w1 !! S (length (heap w)) = Some (ForceConstants (length (heap w)) supercell))
    as Hfc1.
  { simpl. rewrite list_lookup_insert_ne by lia. apply lookup_new_instance. }
  assert (heap w1 !! length (heap w) = Some (Array (get_force_constants phonon))) as Ha1.
  { simpl. rewrite list_lookup_insert_ne by lia. apply lookup_new_array. }
  split.
  - rewrite (get_phonon_after_nac _ s) by done. cbv zeta. rewrite Hfc, Hfs.
    unfold bind at 1, ForceSets_get_dict. cbn [heap]. rewrite Hsets.
    unfold bind at 1, ForceSets_get_supercell. cbn [heap]. rewrite Hsets.
    erewrite bind_returned by apply ForceConstants_init_returned.
    unfold Structure_set_force_constants, bind, structure_at, store, ret. cbn [heap].
    rewrite lookup_app_l by done. unfold addr in *. rewrite Hs. reflexivity.
  - split; [reflexivity|]. split; [exact Hs1|]. split; [reflexivity|].
    split; [exact Hfs|].
    split.
    { simpl. destruct (decide (structure = fs)) as [->|Hne]; [congruence|].
      rewrite list_lookup_insert_ne by done.
      rewrite lookup_app_l; [done|]. by eapply lookup_lt_Some. }
    split; [lia|]. split; [lia|]. split; [exact Hfc1|]. split; [exact Ha1|].
    intros custom'.
    rewrite (get_phonon_after_nac _ s1) by done. cbv zeta.
    change (structure_force_constants s1) with (Some (S (length (heap w)))).
    unfold bind, ForceConstants_get_array, array_at, ret.
    cbn [heap stdout]. rewrite app_nil_r. unfold addr in *.
    rewrite Hfc1. cbn [heap]. rewrite Ha1. reflexivity.
Qed.

(** X5. [get_phonon] ends the process in one case only: force data was asked
    for and the structure has neither force constants nor force sets. *)
Theorem get_phonon_exits_only_without_force_data (structure : addr)
    (NAC setup_forces : bool) (custom_supercell : option (matrix float))
    (w w' : World) :
  get_phonon structure NAC setup_forces custom_supercell w = (Exited, w') ->
  setup_forces = true /\
  exists s, heap w !! structure = Some (StructureObj s) /\
            structure_force_constants s = None /\
            structure_force_sets s = None.
Proof.
  intros Hexit.
  destruct (heap w !! structure) as [[| | |s]|] eqn:Hs;
    try (unfold get_phonon, structure_at, bind in Hexit; rewrite Hs in Hexit; discriminate).
  rewrite (get_phonon_after_nac _ s) in Hexit by done. cbv zeta in Hexit.
  destruct setup_forces; [|by unfold ret in Hexit].
  split; [done|]. exists s. split; [done|]. unfold addr in *.
  destruct (structure_force_constants s) as [fc|].
  - exfalso. unfold bind, ForceConstants_get_array, array_at, ret in Hexit.
    cbn [heap] in Hexit.
    destruct (heap w !! fc) as [[|a ?| |]|]; try discriminate.
    cbn [heap] in Hexit.
    destruct (heap w !! a) as [[| | |]|]; discriminate.
  - split; [done|]. destruct (structure_force_sets s) as [fs|]; [exfalso|done].
    unfold bind at 1, ForceSets_get_dict in Hexit. cbn [heap] in Hexit.
    destruct (heap w !! fs) as [[| |d sc|]|] eqn:Hfs; try discriminate.
    unfold bind at 1, ForceSets_get_supercell in Hexit. cbn [heap] in Hexit.
    rewrite Hfs in Hexit.
    erewrite bind_returned in Hexit by apply ForceConstants_init_returned.
    unfold Structure_set_force_constants, bind, structure_at, store, ret in Hexit.
    cbn [heap] in Hexit.
    rewrite lookup_app_l in Hexit by by eapply lookup_lt_Some.
    rewrite Hs in Hexit. discriminate.
Qed.

End GetPhonon.

(** ** The arrangement of eigenvectors and its inverse *)

Section Arrangement.
Context {A : Type}.

(** Two arrays of the same shape with the same items are equal. *)
Lemma matrix_ext (n m : nat) (M N : matrix A) :
  length M = n -> length N = n ->
  Forall (fun r => length r = m) M -> Forall (fun r => length r = m) N ->
  (forall i j, i < n -> j < m -> item2 M i j = item2 N i j) ->
  M = N.
Proof.
  intros HM HN HrM HrN Hitems. apply list_eq. intros i.
  destruct (decide (i < n)) as [Hi|Hi].
  - destruct (lookup_lt_is_Some_2 M i ltac:(lia)) as [r Hr].
    destruct (lookup_lt_is_Some_2 N i ltac:(lia)) as [r' Hr'].
    rewrite Hr, Hr'. f_equal. apply list_eq. intros j.
    assert (length r = m) as Hlr
      by (eapply (proj1 (Forall_lookup _ _) HrM); eauto).
    assert (length r' = m) as Hlr'
      by (eapply (proj1 (Forall_lookup _ _) HrN); eauto).
    destruct (decide (j < m)) as [Hj|Hj].
    + specialize (Hitems i j Hi Hj). unfold item2 in Hitems.
      by rewrite Hr, Hr' in Hitems.
    + rewrite !lookup_ge_None_2 by lia. done.
  - rewrite !lookup_ge_None_2 by lia. done.
Qed.

(** The rows of a transposed array are as long as the array has rows. *)
Lemma T_row_length (c : nat) (M : matrix A) :
  Forall (fun r => length r = c) M -> Forall (fun r => length r = length M) (T c M).
Proof.
  induction 1 as [|r M Hr HM IH]; simpl.
  - apply Forall_forall. intros x Hx. by apply elem_of_replicate in Hx as [-> _].
  - apply Forall_lookup. intros i col Hi.
    apply lookup_zip_with_Some in Hi as (x & col' & -> & _ & Hcol). simpl.
    f_equal. eapply (proj1 (Forall_lookup _ _) IH); eauto.
Qed.

Lemma length_concat_uniform (n m : nat) (M : matrix A) :
  length M = n -> Forall (fun r => length r = m) M -> length (concat M) = n * m.
Proof.
  intros Hn HM. revert n Hn. induction HM as [|r M Hr _ IH]; intros n Hn; subst n; [done|].
  simpl. rewrite length_app, (IH (length M)), Hr by done. lia.
Qed.

(** Filling rows from the rows laid end to end gives the rows back. *)
Lemma rows_of_concat (n m : nat) (M : matrix A) :
  length M = n -> Forall (fun r => length r = m) M -> rows_of n m (concat M) = M.
Proof.
  intros Hn HM. revert n Hn. induction HM as [|r M Hr HM IH]; intros n Hn.
  - by subst n.
  - subst n. simpl. rewrite take_app_length' by done.
    rewrite drop_app_length' by done. f_equal. by apply IH.
Qed.

(** Positions [j * D + k] for [j < P] and [k < D], in order, are the
    positions below [P * D]. *)
Lemma flat_map_blocks {B : Type} (h : nat -> B) (D P : nat) :
  flat_map (fun j => map (fun k => h (j * D + k)) (seq 0 D)) (seq 0 P) =
  map h (seq 0 (P * D)).
Proof.
  induction P as [|P IH]; [done|].
  rewrite seq_S, flat_map_app, IH. simpl. rewrite app_nil_r.
  replace (D + P * D) with (P * D + D) by lia.
  rewrite seq_app, map_app. f_equal.
  replace (seq (0 + P * D) D) with ((fun x => P * D + x) <$> seq 0 D)
    by (rewrite fmap_add_seq; f_equal; lia).
  by rewrite <- list_fmap_compose.
Qed.

End Arrangement.

Section ArrangementRoundTrip.

(** A [mapM] whose function succeeds on every item of the list. *)
Lemma mapM_total {A B : Type} (f : A -> option B) (g : A -> B) (l : list A) :
  (forall x, x ∈ l -> f x = Some (g x)) -> mapM f l = Some (map g l).
Proof.
  intros Hf. apply mapM_Some. induction l as [|x l IH]; simpl; constructor.
  - apply Hf. by left.
  - apply IH. intros y Hy. apply Hf. by right.
Qed.

Lemma item2_item_or_zero (E : matrix complex) (n c m i : nat) :
  length E = n -> Forall (fun r => length r = c) E -> m < n -> i < c ->
  item2 E m i = Some (item_or_zero E m i).
Proof.
  intros Hn HE Hm Hi. unfold item_or_zero, item2.
  destruct (lookup_lt_is_Some_2 E m ltac:(lia)) as [r Hr]. rewrite Hr. simpl.
  assert (length r = c) as Hlr by (eapply (proj1 (Forall_lookup _ _) HE); eauto).
  destruct (lookup_lt_is_Some_2 r i ltac:(lia)) as [z Hz]. by rewrite Hz.
Qed.

(** The arrangement of an array of [P * D] rows of [P * D] items. *)
Lemma arrange_ev_returned (D P : nat) (E : matrix complex) :
  length E = P * D -> Forall (fun r => length r = P * D) E ->
  arrange_ev D P E =
    Some (Rows (map (fun i =>
            Rows (map (fun j =>
              Rows (map (fun k => Item (item_or_zero E (j * D + k) i)) (seq 0 D)))
              (seq 0 P)))
            (seq 0 (P * D)))).
Proof.
  intros Hn HE. unfold arrange_ev.
  rewrite (mapM_total _ (fun i =>
            Rows (map (fun j =>
              Rows (map (fun k => Item (item_or_zero E (j * D + k) i)) (seq 0 D)))
              (seq 0 P)))); [done|].
  intros i Hi. apply elem_of_seq in Hi.
  rewrite (mapM_total _ (fun j =>
            Rows (map (fun k => Item (item_or_zero E (j * D + k) i)) (seq 0 D))));
    [done|].
  intros j Hj. apply elem_of_seq in Hj.
  rewrite (mapM_total _ (fun k => Item (item_or_zero E (j * D + k) i))); [done|].
  intros k Hk. apply elem_of_seq in Hk.
  rewrite (item2_item_or_zero E (P * D) (P * D)); [done|done|done| |lia].
  nia.
Qed.

(** The items of the arrangement in row-major order: column after
    column of the array it was made from. *)
Lemma ravel_arranged (D P : nat) (E : matrix complex) :
  ravel (Rows (map (fun i =>
          Rows (map (fun j =>
            Rows (map (fun k => Item (item_or_zero E (j * D + k) i)) (seq 0 D)))
            (seq 0 P)))
          (seq 0 (P * D)))) =
  concat (map (fun i => map (fun m => item_or_zero E m i) (seq 0 (P * D)))
              (seq 0 (P * D))).
Proof.
  simpl. rewrite flat_map_concat_map, map_map. f_equal.
  apply map_ext. intros i. simpl.
  rewrite <- (flat_map_blocks (fun m => item_or_zero E m i) D P).
  rewrite !flat_map_concat_map, map_map. f_equal. apply map_ext. intros j. simpl.
  rewrite flat_map_concat_map, map_map. simpl.
  induction (seq 0 D) as [|k ks IH]; simpl; [done|]. by rewrite IH.
Qed.

(** X6. What [obtain_eigenvectors_and_frequencies] arranges,
    [get_renormalized_force_constants] puts back: for an array of
    eigenvectors with [P * D] rows of [P * D] items the arrangement
    succeeds, and its row-major reshape to [D * P] by [D * P] followed by the
    transposition is the array again. *)
Theorem arrangement_undone (D P : nat) (E : matrix complex) :
  length E = P * D ->
  Forall (fun r => length r = P * D) E ->
  exists arranged_ev,
    arrange_ev D P E = Some arranged_ev /\
    length (ravel arranged_ev) = (D * P) * (D * P) /\
    T (D * P) <$> reshape arranged_ev (D * P) (D * P) = Some E.
Proof.
  intros Hn HE. eexists. split; [by apply arrange_ev_returned|].
  unfold reshape. cbv zeta. rewrite ravel_arranged.
  replace (D * P) with (P * D) by lia.
  set (C := map (fun i => map (fun m => item_or_zero E m i) (seq 0 (P * D)))
                (seq 0 (P * D))).
  assert (length C = P * D) as HlC by (unfold C; by rewrite length_map, length_seq).
  assert (Forall (fun r => length r = P * D) C) as HrC.
  { unfold C. apply Forall_forall. intros r Hr. apply list_elem_of_fmap in Hr as (i & -> & _).
    by rewrite length_map, length_seq. }
  rewrite (length_concat_uniform (P * D) (P * D)) by done.
  split; [done|]. rewrite Nat.eqb_refl. simpl. f_equal.
  rewrite rows_of_concat by done.
  apply (matrix_ext (P * D) (P * D)); [|done| |done|].
  - by rewrite length_T.
  - eapply Forall_impl; [by apply T_row_length|]. intros r Hr. by rewrite Hr.
  - intros i j Hi Hj. rewrite T_lookup by (done || lia).
    unfold C, item2. rewrite list_lookup_fmap, lookup_seq_lt by done. simpl.
    rewrite list_lookup_fmap, lookup_seq_lt by done. simpl.
    symmetry. by apply (item2_item_or_zero E (P * D) (P * D)).
Qed.

End ArrangementRoundTrip.

(** ** Errors and edges of the reconstruction *)

Section ReconstructionErrors.
Context {lib : PhonopyLib}.

(** X7. A bundle that does not hold [size * size] items makes
    [get_renormalized_force_constants] raise ValueError before anything is
    built or printed: the store is as it was, whatever [symmetrize] is. *)
Theorem get_renormalized_force_constants_wrong_size
    (renormalized_frequencies : matrix float) (eigenvectors : list (ndarray complex))
    (structure : addr) (s : Structure) (fc_supercell : option (matrix float))
    (symmetrize : bool) (w : World) :
  let size := number_of_dimensions s * number_of_primitive_atoms s in
  heap w !! structure = Some (StructureObj s) ->
  Exists (fun ev => length (ravel ev) <> size * size) eigenvectors ->
  get_renormalized_force_constants renormalized_frequencies eigenvectors structure
    fc_supercell symmetrize w = (Raised ValueError, w).
Proof.
  intros size Hs Hevs.
  unfold get_renormalized_force_constants, reconstructed_force_constants.
  erewrite bind_raised; [reflexivity|].
  erewrite bind_raised; [reflexivity|].
  by apply (reconstruction_context_raised _ _ _ s).
Qed.

(** [get_commensurate_points] needs no force data: for any structure in
    the store it returns the points of the reconstruction context and
    leaves the store and the output as they are. *)
Lemma get_commensurate_points_returned (structure : addr) (s : Structure)
    (fc_supercell : option (matrix float)) (w : World) :
  heap w !! structure = Some (StructureObj s) ->
  get_commensurate_points structure fc_supercell w =
    (Returned (commensurate_points (get_primitive (bare_phonon s fc_supercell))
                 (get_supercell (bare_phonon s fc_supercell))), w).
Proof.
  intros Hs. unfold get_commensurate_points.
  erewrite bind_returned by by apply get_phonon_no_setup.
  reflexivity.
Qed.

End ReconstructionErrors.

(** ** Densities of states, thermal properties and bands *)

Section Densities.
Context {lib : PhonopyLib} {out : PhonopyOutput}.

(** X8. With force constants passed in, the phonon object is built on the
    supercell stored in that instance (the structure's own when the
    instance stores none) and gets the tensor of the instance; the force
    data of the structure is not looked at, so that a structure without any
    does not end the process, and the store is left as it is. *)
Theorem dos_phonon_with_force_constants (structure fc a : addr) (s : Structure)
    (supercell : option (matrix float)) (t : Tensor) (w : World) :
  heap w !! structure = Some (StructureObj s) ->
  heap w !! fc = Some (ForceConstants a supercell) ->
  heap w !! a = Some (Array t) ->
  dos_phonon structure (Some fc) w =
    (Returned (set_force_constants (bare_phonon s supercell) t), w).
Proof.
  intros Hs Hfc Ha. unfold dos_phonon.
  unfold bind at 1, ForceConstants_get_supercell. unfold addr in *. rewrite Hfc.
  erewrite bind_returned by by apply get_phonon_no_setup.
  unfold bind, ForceConstants_get_array, array_at, ret. unfold addr in *.
  by rewrite Hfc, Ha.
Qed.

(** The ratio of the atoms of the cell to those of the primitive cell. *)
Lemma obtain_phonopy_dos_normalized (structure : addr) (s : Structure) (mesh : list Z)
    (force_constants : option addr) (freq_min freq_max : option float)
    (projected_on_atom : Z) (w w1 : World) (phonon : Phonopy) :
  dos_phonon structure force_constants w = (Returned phonon, w1) ->
  heap w1 !! structure = Some (StructureObj s) ->
  (projected_on_atom < 0)%Z ->
  obtain_phonopy_dos structure mesh force_constants freq_min freq_max
      projected_on_atom w =
    (let total := get_total_DOS
                    (set_total_DOS (set_mesh phonon mesh None None) freq_min freq_max true) in
     if (number_of_primitive_atoms s =? 0)%nat then (Raised ZeroDivisionError, w1)
     else (Returned [fst total;
                     map (fun x => (x * (float_of_nat (number_of_atoms s)
                                        / float_of_nat (number_of_primitive_atoms s)))%float)
                         (snd total)], w1)).
Proof.
  intros Hphonon Hs Hneg. unfold obtain_phonopy_dos.
  erewrite bind_returned by exact Hphonon.
  apply Z.ltb_lt in Hneg. rewrite Hneg.
  unfold bind at 1, ret.
  erewrite bind_returned by by apply structure_at_returned.
  by destruct (number_of_primitive_atoms s =? 0)%nat.
Qed.

(** X9. Every negative atom index, not only the default -1, asks for the total
    density of states: the mesh is set without eigenvectors, the
    tetrahedron method is used, nothing is printed, the frequencies come
    back as phonopy gave them and the densities multiplied by the ratio of
    the atoms of the cell to those of the primitive cell. *)
Theorem obtain_phonopy_dos_total (structure : addr) (s : Structure) (mesh : list Z)
    (force_constants : option addr) (freq_min freq_max : option float)
    (projected_on_atom : Z) (w w1 : World) (phonon : Phonopy) :
  dos_phonon structure force_constants w = (Returned phonon, w1) ->
  heap w1 !! structure = Some (StructureObj s) ->
  (projected_on_atom < 0)%Z ->
  number_of_primitive_atoms s <> 0 ->
  exists frequencies dos,
    get_total_DOS (set_total_DOS (set_mesh phonon mesh None None) freq_min freq_max true)
      = (frequencies, dos) /\
    obtain_phonopy_dos structure mesh force_constants freq_min freq_max
        projected_on_atom w =
      (Returned [frequencies;
                 map (fun x => (x * (float_of_nat (number_of_atoms s)
                                    / float_of_nat (number_of_primitive_atoms s)))%float)
                     dos], w1).
Proof.
  intros Hphonon Hs Hneg Hprim.
  rewrite (obtain_phonopy_dos_normalized _ s _ _ _ _ _ _ w1 phonon) by done.
  cbv zeta.
  destruct (get_total_DOS _) as [frequencies dos]. exists frequencies, dos.
  split; [done|]. simpl.
  by destruct (Nat.eqb_spec (number_of_primitive_atoms s) 0).
Qed.

(** X10. An atom index within the partial densities selects the row of that
    atom: the mesh is set with eigenvectors and without mesh symmetry, and
    the row comes back multiplied by the ratio of the atoms of the cell to
    those of the primitive cell, next to the unscaled frequencies. *)
Theorem obtain_phonopy_dos_projected (structure : addr) (s : Structure) (mesh : list Z)
    (force_constants : option addr) (freq_min freq_max : option float)
    (projected_on_atom : Z) (w w1 : World) (phonon : Phonopy) (row : list float) :
  dos_phonon structure force_constants w = (Returned phonon, w1) ->
  heap w1 !! structure = Some (StructureObj s) ->
  (0 <= projected_on_atom)%Z ->
  snd (get_partial_DOS
         (set_partial_DOS (set_mesh phonon mesh (Some true) (Some false))
            freq_min freq_max)) !! Z.to_nat projected_on_atom = Some row ->
  number_of_primitive_atoms s <> 0 ->
  obtain_phonopy_dos structure mesh force_constants freq_min freq_max
      projected_on_atom w =
    (Returned [fst (get_partial_DOS
                      (set_partial_DOS (set_mesh phonon mesh (Some true) (Some false))
                         freq_min freq_max));
               map (fun x => (x * (float_of_nat (number_of_atoms s)
                                  / float_of_nat (number_of_primitive_atoms s)))%float)
                   row], w1).
Proof.
  intros Hphonon Hs Hpos Hrow Hprim. unfold obtain_phonopy_dos.
  erewrite bind_returned by exact Hphonon.
  destruct (Z.ltb_spec projected_on_atom 0) as [|_]; [lia|].
  apply lookup_lt_Some in Hrow as Hlt.
  destruct (Z.leb_spec (Z.of_nat (length (snd (get_partial_DOS
              (set_partial_DOS (set_mesh phonon mesh (Some true) (Some false))
                 freq_min freq_max))))) projected_on_atom) as [Hle|_]; [lia|].
  rewrite Hrow. unfold or_raise, bind at 1, ret.
  unfold bind at 1.
  erewrite bind_returned by by apply structure_at_returned.
  by destruct (Nat.eqb_spec (number_of_primitive_atoms s) 0).
Qed.

End Densities.

Section ThermalAndBands.
Context {lib : PhonopyLib} {out : PhonopyOutput}.

(** X11. [obtain_phonopy_thermal_properties] returns the free energy, the
    entropy and the heat capacity at the first temperature phonopy reports,
    each multiplied by the ratio of the atoms of the cell to those of the
    primitive cell; the temperature itself is dropped.  Phonopy is asked for
    the single temperature given, with step 1, on a mesh set without
    options. *)
Theorem obtain_phonopy_thermal_properties_returned (structure : addr) (s : Structure)
    (temperature : float) (mesh : list Z) (force_constants : option addr)
    (w w1 : World) (phonon : Phonopy) (t free_energy entropy cv : float) :
  dos_phonon structure force_constants w = (Returned phonon, w1) ->
  heap w1 !! structure = Some (StructureObj s) ->
  transpose (get_thermal_properties
               (set_thermal_properties (set_mesh phonon mesh None None) 1
                  temperature temperature)) !! 0 = Some [t; free_energy; entropy; cv] ->
  number_of_primitive_atoms s <> 0 ->
  obtain_phonopy_thermal_properties structure temperature mesh force_constants w =
    (let unit_cell_relation := (float_of_nat (number_of_atoms s)
                                / float_of_nat (number_of_primitive_atoms s))%float in
     (Returned ((free_energy * unit_cell_relation)%float,
                (entropy * unit_cell_relation)%float,
                (cv * unit_cell_relation)%float), w1)).
Proof.
  intros Hphonon Hs Hfirst Hprim. unfold obtain_phonopy_thermal_properties.
  erewrite bind_returned by exact Hphonon.
  rewrite Hfirst. unfold or_raise, bind at 1, ret.
  erewrite bind_returned by by apply structure_at_returned.
  by destruct (Nat.eqb_spec (number_of_primitive_atoms s) 0).
Qed.

(** The points of a band. *)
Lemma broadcast_same_length (f : float -> float -> float) (a b : list float) :
  length a = length b ->
  broadcast f a b = Some (zip_with f a b) /\ length (zip_with f a b) = length a.
Proof.
  intros Hlen. unfold broadcast. rewrite Hlen, Nat.eqb_refl.
  split; [done|]. rewrite length_zip_with. lia.
Qed.

Lemma band_point_length (q_start q_end : list float) (band_resolution : Z) (i : nat) :
  length q_start = length q_end ->
  exists point, band_point q_start q_end band_resolution i = Some point /\
                length point = length q_start.
Proof.
  intros Hlen. unfold band_point.
  destruct (broadcast_same_length PrimFloat.sub q_end q_start ltac:(done)) as [-> Hd].
  simpl.
  destruct (broadcast_same_length PrimFloat.add q_start
              (map (fun x => (x / float_of_Z band_resolution * float_of_nat i)%float)
                   (zip_with PrimFloat.sub q_end q_start))) as [-> Hp].
  { rewrite length_map, Hd. done. }
  eexists. split; [reflexivity|]. exact Hp.
Qed.

Lemma band_points_length (q_start q_end : list float) (band_resolution : Z) :
  length q_start = length q_end ->
  exists band, band_points q_start q_end band_resolution = Some band /\
               length band = Z.to_nat (band_resolution + 1) /\
               Forall (fun point => length point = length q_start) band.
Proof.
  intros Hlen. unfold band_points.
  assert (forall indices, exists band,
            mapM (band_point q_start q_end band_resolution) indices = Some band /\
            length band = length indices /\
            Forall (fun point => length point = length q_start) band) as Hband.
  { induction indices as [|i indices (band & Hband & Hl & Hf)]; [by exists []|].
    destruct (band_point_length q_start q_end band_resolution i Hlen) as (pt & Hpt & Hlpt).
    exists (pt :: band). simpl. rewrite Hpt, Hband. simpl.
    split; [done|]. split; [by rewrite Hl|]. by constructor. }
  destruct (Hband (seq 0 (Z.to_nat (band_resolution + 1)))) as (band & Hb & Hl & Hf).
  exists band. rewrite length_seq in Hl. done.
Qed.

(** X12. For ranges whose two ends have the same number of components,
    [obtain_phonon_dispersion_bands] hands to phonopy one band per range, of
    [band_resolution + 1] points (none when that is not positive) with the
    components of the ends.  With force constants passed in, the phonon
    object is built without non-analytical corrections, whatever [NAC] is,
    and on the supercell of the instance. *)
Theorem obtain_phonon_dispersion_bands_with_force_constants (structure fc a : addr)
    (s : Structure) (supercell : option (matrix float)) (t : Tensor)
    (bands_ranges : list (list float * list float)) (NAC : bool) (band_resolution : Z)
    (w : World) :
  heap w !! structure = Some (StructureObj s) ->
  heap w !! fc = Some (ForceConstants a supercell) ->
  heap w !! a = Some (Array t) ->
  Forall (fun range => length (fst range) = length (snd range)) bands_ranges ->
  exists bands,
    obtain_phonon_dispersion_bands structure bands_ranges (Some fc) NAC band_resolution w =
      (Returned (get_band_structure
                   (set_band_structure (set_force_constants (bare_phonon s supercell) t)
                      bands false)), w) /\
    Forall2 (fun range band =>
               length band = Z.to_nat (band_resolution + 1) /\
               Forall (fun point => length point = length (fst range)) band)
            bands_ranges bands.
Proof.
  intros Hs Hfc Ha Hranges.
  assert (exists bands,
            mapM (fun range => band_points (fst range) (snd range) band_resolution)
                 bands_ranges = Some bands /\
            Forall2 (fun range band =>
               length band = Z.to_nat (band_resolution + 1) /\
               Forall (fun point => length point = length (fst range)) band)
              bands_ranges bands) as (bands & Hbands & Hshape).
  { induction Hranges as [|range ranges Hr _ (bands & Hbands & Hshape)]; [by exists []|].
    destruct (band_points_length (fst range) (snd range) band_resolution Hr)
      as (band & Hband & Hl & Hf).
    exists (band :: bands). simpl. rewrite Hband, Hbands. simpl.
    split; [done|]. by constructor. }
  exists bands. split; [|done].
  unfold obtain_phonon_dispersion_bands.
  unfold bind at 1. unfold bind at 1, ForceConstants_get_supercell.
  unfold addr in *. rewrite Hfc.
  erewrite bind_returned by by apply get_phonon_no_setup.
  unfold bind at 1, ForceConstants_get_array. unfold addr in *. rewrite Hfc.
  unfold bind at 1, array_at. unfold addr in *. rewrite Ha.
  unfold ret at 1. rewrite Hbands. reflexivity.
Qed.

(** X13. What [obtain_eigenvectors_and_frequencies] prints and the numpy
    print options it leaves.  The orthonormality test prints its matrix
    with precision 3 and suppression, then resets [suppress] only: with
    [test_orthonormal] the frequencies are printed with precision 3 and
    without suppression, whatever the options were, and these options
    outlive the call; without the test the frequencies are printed with the
    options in force, which are left alone.  The test also replaces the
    eigenvectors by the normalized ones, which are what is arranged and
    returned. *)
Theorem obtain_eigenvectors_and_frequencies_printoptions (structure : addr)
    (s : Structure) (q_vector : list float) (NAC test_orthonormal print_data : bool)
    (printoptions : PrintOptions) (w w0 : World) (phonon : Phonopy)
    (arranged_ev : ndarray complex) :
  let frequencies := fst (get_frequencies_with_eigenvectors phonon q_vector) in
  let eigenvectors := snd (get_frequencies_with_eigenvectors phonon q_vector) in
  let tested := if test_orthonormal then eigenvectors_normalization eigenvectors
                else eigenvectors in
  let left := if test_orthonormal then {| precision := 3; suppress := false |}
              else printoptions in
  get_phonon structure NAC true None w = (Returned phonon, w0) ->
  heap w0 !! structure = Some (StructureObj s) ->
  arrange_ev (number_of_dimensions s) (number_of_primitive_atoms s) tested
    = Some arranged_ev ->
  obtain_eigenvectors_and_frequencies structure q_vector NAC test_orthonormal print_data
      printoptions w =
    (Returned (arranged_ev, frequencies, left),
     {| heap := heap w0;
        stdout := stdout w0
          ++ (if test_orthonormal then
                ["Testing eigenvectors orthonormality";
                 orthonormality_str {| precision := 3; suppress := true |} tested]
              else [])
          ++ (if print_data then
                ["Harmonic frequencies (THz):"; frequencies_str left frequencies]
              else []) |}).
Proof.
  intros frequencies eigenvectors tested left Hphonon Hs Harranged.
  unfold obtain_eigenvectors_and_frequencies.
  erewrite bind_returned by exact Hphonon.
  fold frequencies eigenvectors.
  destruct test_orthonormal; simpl in tested, left; subst tested left.
  - unfold bind at 1. unfold bind at 1, print at 1. unfold bind at 1, print at 1.
    unfold ret at 1. cbn [fst snd].
    erewrite bind_returned by (apply structure_at_returned; exact Hs).
    rewrite Harranged. unfold or_raise, bind at 1, ret at 1.
    destruct print_data; unfold bind, print, ret; cbn [heap stdout]; do 2 f_equal.
    + by rewrite <- !app_assoc.
    + by rewrite app_nil_r, <- app_assoc.
  - unfold bind at 1, ret at 1. cbn [fst snd].
    erewrite bind_returned by (apply structure_at_returned; exact Hs).
    rewrite Harranged. unfold or_raise, bind at 1, ret at 1.
    destruct print_data; unfold bind, print, ret; cbn [heap stdout].
    + do 2 f_equal. by rewrite <- !app_assoc.
    + simpl. rewrite app_nil_r. by destruct w0.
Qed.


End ThermalAndBands.

(** ** Which q-points are returned *)

(** A float that is at least zero is a number, and a number equals
    itself. *)
Lemma nonnegative_eqb_refl (x : float) : (0 <=? x)%float = true -> (x =? x)%float = true.
Proof.
  rewrite FloatAxioms.leb_spec, FloatAxioms.eqb_spec.
  unfold SpecFloat.SFleb, SpecFloat.SFeqb. intros Hle.
  rewrite SFcompare_refl; [done|]. intros Hnan. rewrite Hnan in Hle.
  by destruct (Prim2SF 0).
Qed.

Lemma nonnegative_tuple_eqb_refl (v : list float) :
  all_nonnegative v = true -> tuple_eqb v v = true.
Proof.
  unfold all_nonnegative. induction v as [|x v IH]; simpl; [done|].
  intros [Hx Hv]%andb_prop. by rewrite nonnegative_eqb_refl, IH.
Qed.

Section WhichQPoints.
Context {lib : PhonopyLib} {rt : Runtime}.

Lemma q_point_image_returned (q_point : list float) (primitive_matrix : matrix float)
    (operation_matrix : matrix Z) (w w' : World) (v : list float) :
  q_point_image q_point primitive_matrix operation_matrix w = (Returned v, w') ->
  q_point_image_value q_point primitive_matrix operation_matrix = Some v /\ w' = w.
Proof.
  unfold q_point_image, q_point_image_value, or_raise, bind, ret, raise.
  destruct (np_linalg_inv primitive_matrix) as [p_inv|]; [|done]. simpl.
  destruct (np_dot p_inv _) as [m1|]; [|done]. simpl.
  destruct (np_dot m1 primitive_matrix) as [m2|]; [|done]. simpl.
  destruct (np_dot_vec q_point m2) as [v'|]; [|done]. by intros [= -> ->].
Qed.

(** When the loop returns, every image was computed, and the points kept
    are the images without a negative component, in the order of the
    operations. *)
Lemma q_points_loop_returned (q_point : list float) (primitive_matrix : matrix float)
    (operations : list (matrix Z)) (tot_points tot_points' : matrix float) (w w' : World) :
  q_points_loop q_point primitive_matrix operations tot_points w
    = (Returned tot_points', w') ->
  exists images,
    Forall2 (fun op v => q_point_image_value q_point primitive_matrix op = Some v)
            operations images /\
    tot_points' = tot_points ++ List.filter all_nonnegative images.
Proof.
  revert tot_points w. induction operations as [|op ops IH]; intros tot_points w; simpl.
  - unfold ret. intros [= <- _]. exists []. split; [constructor|]. by rewrite app_nil_r.
  - intros Hloop. apply bind_returned_inv in Hloop as (v & w1 & Hv & Hloop).
    apply q_point_image_returned in Hv as [Hv ->].
    apply IH in Hloop as (images & Himages & ->).
    exists (v :: images). split; [by constructor|]. simpl.
    destruct (all_nonnegative v); [by rewrite <- app_assoc|done].
Qed.

(** X14. The rows that [get_equivalent_q_points_by_symmetry] returns are images
    of the q-point by the symmetry operations of the structure that have no
    negative component, and no such image is lost: each of them is equal to
    a row of the result. *)
Theorem equivalent_q_points_are_the_nonnegative_images (q_point : list float)
    (structure : addr) (s : Structure) (rows : matrix float) (w w' : World) :
  heap w !! structure = Some (StructureObj s) ->
  get_equivalent_q_points_by_symmetry q_point structure w = (Returned rows, w') ->
  let operations := get_reciprocal_operations (Symmetry_init (bulk_of s)) in
  (forall r, r ∈ rows ->
     all_nonnegative r = true /\
     exists op, op ∈ operations /\
                q_point_image_value q_point (primitive_matrix s) op = Some r) /\
  (forall op v, op ∈ operations ->
     q_point_image_value q_point (primitive_matrix s) op = Some v ->
     all_nonnegative v = true ->
     exists r, r ∈ rows /\ tuple_eqb r v = true).
Proof.
  intros Hs Hrun operations. unfold get_equivalent_q_points_by_symmetry in Hrun.
  erewrite bind_returned in Hrun by by apply structure_at_returned.
  apply bind_returned_inv in Hrun as (tot_points & w1 & Hloop & Hstack).
  apply q_points_loop_returned in Hloop as (images & Himages & ->).
  simpl in Hstack. fold operations in Himages.
  assert (rows = set_order (set_of_rows (List.filter all_nonnegative images))) as ->.
  { unfold vstack, ret, raise in Hstack.
    destruct (set_order _) as [|r rest]; [done|].
    destruct (forallb _ _); [|done]. by injection Hstack as <- _. }
  split.
  - intros r Hr. rewrite set_order_perm in Hr.
    assert (Forall (fun r => r ∈ List.filter all_nonnegative images)
              (set_of_rows (List.filter all_nonnegative images))) as Hsub.
    { apply set_of_rows_Forall, Forall_forall. auto. }
    apply (proj1 (Forall_forall _ _) Hsub) in Hr.
    apply list_elem_of_In, filter_In in Hr as [Hr Hnonneg]. split; [done|].
    apply list_elem_of_In, list_elem_of_lookup in Hr as [i Hi].
    destruct (Forall2_lookup_r _ _ _ _ _ Himages Hi) as (op & Hop & Hvalue).
    exists op. split; [|done]. apply list_elem_of_lookup. eauto.
  - intros op v Hop Hvalue Hnonneg.
    apply list_elem_of_lookup in Hop as [i Hi].
    destruct (Forall2_lookup_l _ _ _ _ _ Himages Hi) as (v' & Hv' & Hvalue').
    assert (v' = v) as -> by congruence.
    destruct (fold_set_add_covers (List.filter all_nonnegative images) [] v)
      as (r & Hr & Heq).
    + by apply nonnegative_tuple_eqb_refl.
    + left. apply list_elem_of_In, filter_In. split; [|done].
      apply list_elem_of_In, list_elem_of_lookup. eauto.
    + exists r. split; [|done]. by rewrite set_order_perm.
Qed.

End WhichQPoints.

(** ** The order of the volumes in the QHA script *)

Section Argsort.
Context {lib : PhonopyLib} {env : ScriptEnv}.

(** Indexing by a rearrangement of the indices. *)
Lemma take_along_Permutation {A} (v : list A) (index index' : list nat) (l : list A) :
  index ≡ₚ index' -> take_along v index = Some l ->
  exists l', take_along v index' = Some l' /\ l ≡ₚ l'.
Proof.
  unfold take_along. intros Hperm. revert l.
  induction Hperm as [|i index index' _ IH|i j index|index1 index2 index3 _ IH1 _ IH2];
    intros l Hl.
  - exists l. done.
  - simpl in *. destruct (v !! i) as [a|]; [|done]. simpl in *.
    destruct (mapM _ index) as [l0|] eqn:Hl0; [|done]. simpl in Hl. injection Hl as <-.
    destruct (IH l0 eq_refl) as (l0' & -> & Hp). exists (a :: l0'). simpl.
    split; [done|]. by constructor.
  - simpl in *. destruct (v !! i) as [a|]; [|by destruct (v !! j)].
    destruct (v !! j) as [b|]; [|done]. simpl in *.
    destruct (mapM _ index) as [l0|]; [|done]. simpl in *. injection Hl as <-.
    exists (a :: b :: l0). split; [done|]. apply Permutation_swap.
  - destruct (IH1 l Hl) as (l1 & Hl1 & Hp1).
    destruct (IH2 l1 Hl1) as (l2 & Hl2 & Hp2).
    exists l2. split; [done|]. by etrans.
Qed.

Lemma take_along_all {A} (v : list A) : take_along v (seq 0 (length v)) = Some v.
Proof.
  unfold take_along. apply mapM_Some. apply Forall2_same_length_lookup_2.
  - by rewrite length_seq.
  - intros i x a Hx Ha. apply lookup_seq in Hx as [-> _]. done.
Qed.

(** Indexing the volumes by [argsort] never fails, keeps every volume, and
    leaves no volume in front of one that sorts before it, whichever order
    numpy gives to equal volumes. *)
Lemma take_along_argsort (v : list float) :
  exists sorted,
    take_along v (argsort v) = Some sorted /\
    sorted ≡ₚ v /\
    forall k a b, sorted !! k = Some a -> sorted !! S k = Some b ->
                  sorts_before b a = false.
Proof.
  destruct (take_along_Permutation v (seq 0 (length v)) (argsort v) v) as (sorted & Hs & Hp).
  { by rewrite argsort_perm. }
  { apply take_along_all. }
  exists sorted. split; [done|]. split; [done|].
  intros k a b Ha Hb.
  unfold take_along in Hs. apply mapM_Some in Hs.
  destruct (Forall2_lookup_r _ _ _ _ _ Hs Ha) as (i & Hi & Hvi).
  destruct (Forall2_lookup_r _ _ _ _ _ Hs Hb) as (j & Hj & Hvj).
  pose proof (argsort_sorted v) as Hsorted.
  assert (in_order v i j) as Hij.
  { clear -Hi Hj Hsorted. revert k Hi Hj.
    induction Hsorted as [|x rest Hrest IH Hhd]; intros k Hi Hj; [done|].
    destruct k as [|k]; simpl in *.
    - injection Hi as ->. destruct rest as [|y rest]; [done|]. simpl in Hj.
      injection Hj as ->. by inversion Hhd.
    - eauto. }
  unfold in_order in Hij.
  by rewrite (nth_lookup_Some _ _ _ _ Hvi), (nth_lookup_Some _ _ _ _ Hvj) in Hij.
Qed.


Lemma Sorted_lt_seq (a n : nat) : Sorted lt (seq a n).
Proof.
  revert a. induction n as [|n IH]; intros a; simpl; [constructor|].
  constructor; [apply IH|]. destruct n; simpl; constructor. lia.
Qed.

(** Where every volume sorts before the ones listed after it, no two are
    equal and there is one list of indices that sorts them, so that numpy
    has no choice: nothing is moved. *)
Lemma argsort_increasing (v : list float) :
  (forall i j, j < i -> i < length v ->
     sorts_before (nth j v 0%float) (nth i v 0%float) = true) ->
  argsort v = seq 0 (length v).
Proof.
  intros Hv.
  apply (Sorted_unique_strong lt); [intros; lia| |apply Sorted_lt_seq|apply argsort_perm].
  pose proof (argsort_sorted v) as Hsorted.
  assert (NoDup (argsort v)) as Hnodup.
  { rewrite argsort_perm. apply NoDup_seq. }
  assert (Forall (fun i => i < length v) (argsort v)) as Hbound.
  { rewrite argsort_perm. apply Forall_forall. intros i Hi%elem_of_seq. lia. }
  induction Hsorted as [|x rest Hrest IH Hhd]; [constructor|].
  apply NoDup_cons in Hnodup as [Hx Hnodup].
  apply Forall_cons in Hbound as [Hxb Hbound].
  constructor; [by apply IH|].
  destruct Hhd as [|y rest Hxy]; constructor.
  apply Forall_cons in Hbound as [Hyb _].
  destruct (lt_eq_lt_dec x y) as [[Hlt| ->]|Hgt]; [done| |].
  - exfalso. apply Hx. by left.
  - unfold in_order in Hxy. rewrite (Hv x y Hgt Hxb) in Hxy. done.
Qed.

End Argsort.


Section QhaRun.
Context {lib : PhonopyLib} {rt : Runtime} {env : ScriptEnv}.

Lemma or_raise_returned_inv {A} (e : Exception) (o : option A) (w w' : World) (a : A) :
  or_raise e o w = (Returned a, w') -> o = Some a /\ w' = w.
Proof. destruct o; unfold or_raise, ret, raise; by intros [= -> ->]. Qed.

(** Reading the force-constants files adds, per file, one array and one
    instance to the store, changes nothing that was there and prints
    nothing. *)
Lemma read_force_constants_store (fc_filenames : list string)
    (fc_supercell : matrix float) (w : World) :
  exists objects,
    read_force_constants fc_filenames fc_supercell w =
      (Returned (map parse_FORCE_CONSTANTS fc_filenames),
       {| heap := heap w ++ objects; stdout := stdout w |}) /\
    length objects = 2 * length fc_filenames.
Proof.
  revert w; induction fc_filenames as [|filename rest IH]; intros w; simpl.
  - exists []. rewrite app_nil_r. by destruct w.
  - erewrite bind_returned by apply get_force_constants_from_file_returned.
    unfold bind at 1, ForceConstants_get_array. cbn [heap]. rewrite lookup_new_instance.
    unfold bind at 1, array_at. cbn [heap]. rewrite lookup_new_array.
    match goal with |- context [bind _ _ ?w1] =>
      destruct (IH w1) as (objects & Hrest & Hlen) end.
    erewrite bind_returned by exact Hrest.
    eexists (_ :: _ :: objects). unfold ret. cbn [heap stdout].
    rewrite app_nil_r, <- app_assoc. split; [reflexivity|]. simpl. lia.
Qed.

(** The steps of a run that returns. *)
Lemma qha_extract_returned_inv (args : Args) (w w' : World) (run : Run) :
  qha_extract args w = (Returned run, w') ->
  exists volumes energies sorted_volumes sorted_energies fe en cv fc_supercell w0 objects,
    transpose (np_loadtxt (ev args)) !! 0 = Some volumes /\
    transpose (np_loadtxt (ev args)) !! 1 = Some energies /\
    one_dimensional (np_loadtxt (ev args)) = false /\
    take_along volumes (argsort volumes) = Some sorted_volumes /\
    take_along energies (argsort volumes) = Some sorted_energies /\
    T_columns (map (fun f => map free_energy (yaml_thermal_properties f))
                   (flat_map sorted_glob (tp args))) (argsort volumes) = Some fe /\
    T_columns (map (fun f => map entropy (yaml_thermal_properties f))
                   (flat_map sorted_glob (tp args))) (argsort volumes) = Some en /\
    T_columns (map (fun f => map heat_capacity (yaml_thermal_properties f))
                   (flat_map sorted_glob (tp args))) (argsort volumes) = Some cv /\
    qha_volumes (phonopy_qha run) = sorted_volumes /\
    qha_electronic_energies (phonopy_qha run) = sorted_energies /\
    qha_free_energy (phonopy_qha run) = fe /\
    qha_entropy (phonopy_qha run) = en /\
    qha_cv (phonopy_qha run) = cv /\
    interp_x (f_temperature run) = sorted_volumes /\
    interp_y (f_temperature run) =
      map (fun f => np_T (parse_FORCE_CONSTANTS f)) (flat_map sorted_glob (fc args)) /\
    read_supercell_phonon (input_file args) w = (Returned fc_supercell, w0) /\
    length objects = 2 * length (flat_map sorted_glob (fc args)) /\
    w' = {| heap := heap w0 ++ objects;
            stdout := stdout w0 ++ ["QHA Renormalized force constants written in file"] |}.
Proof.
  unfold qha_extract. intros Hrun.
  apply bind_returned_inv in Hrun as (volumes & w1 & [Hv ->]%or_raise_returned_inv & Hrun).
  apply bind_returned_inv in Hrun as (energies & w1 & [He ->]%or_raise_returned_inv & Hrun).
  apply bind_returned_inv in Hrun as (sv & w1 & [Hsv ->]%or_raise_returned_inv & Hrun).
  destruct (one_dimensional (np_loadtxt (ev args))) eqn:Hdim; [done|].
  apply bind_returned_inv in Hrun as (se & w1 & [Hse ->]%or_raise_returned_inv & Hrun).
  apply bind_returned_inv in Hrun as (fe & w1 & [Hfe ->]%or_raise_returned_inv & Hrun).
  apply bind_returned_inv in Hrun as (en & w1 & [Hen ->]%or_raise_returned_inv & Hrun).
  apply bind_returned_inv in Hrun as (cv & w1 & [Hcv ->]%or_raise_returned_inv & Hrun).
  apply bind_returned_inv in Hrun as (tv & w1 & [Htv ->]%or_raise_returned_inv & Hrun).
  apply bind_returned_inv in Hrun as (fc_supercell & w0 & Hsupercell & Hrun).
  apply bind_returned_inv in Hrun as (fcs & w1 & Hread & Hrun).
  destruct (read_force_constants_store (flat_map sorted_glob (fc args)) fc_supercell w0)
    as (objects & Hread' & Hlen).
  rewrite Hread' in Hread. injection Hread as <- <-.
  apply bind_returned_inv in Hrun as (tfc & w1 & [Htfc ->]%or_raise_returned_inv & Hrun).
  unfold bind, print, ret in Hrun. cbn [heap stdout] in Hrun. injection Hrun as <- <-.
  exists volumes, energies, sv, se, fe, en, cv, fc_supercell, w0, objects. simpl.
  repeat split; try done. by rewrite map_map.
Qed.

(** An energy-volume file of a single row, or of a single column, is loaded
    as a one-dimensional array: the script raises IndexError, at line 36,
    37 or 74, before anything is printed or built. *)
Lemma qha_extract_one_dimensional (args : Args) (w : World) :
  one_dimensional (np_loadtxt (ev args)) = true ->
  qha_extract args w = (Raised IndexError, w).
Proof.
  intros Hdim. unfold qha_extract. rewrite Hdim.
  destruct (transpose (np_loadtxt (ev args)) !! 0) as [volumes|]; [|done].
  unfold or_raise at 1, bind at 1, ret at 1.
  by destruct (transpose (np_loadtxt (ev args)) !! 1) as [energies|].
Qed.

(** X15. The volumes a run hands to PhonopyQHA and to the interpolator are the
    volumes of the energy-volume file rearranged so that none stands in
    front of one that sorts before it, and each electronic energy stays
    with its volume: position by position both come from the row of the
    file that [np.argsort] names, whichever order it gives to equal
    volumes. *)
Theorem qha_volumes_sorted_with_energies (args : Args) (w w' : World) (run : Run) :
  qha_extract args w = (Returned run, w') ->
  exists volumes energies,
    transpose (np_loadtxt (ev args)) !! 0 = Some volumes /\
    transpose (np_loadtxt (ev args)) !! 1 = Some energies /\
    qha_volumes (phonopy_qha run) ≡ₚ volumes /\
    interp_x (f_temperature run) = qha_volumes (phonopy_qha run) /\
    (forall k a b, qha_volumes (phonopy_qha run) !! k = Some a ->
                   qha_volumes (phonopy_qha run) !! S k = Some b ->
                   sorts_before b a = false) /\
    (forall k, k < length volumes ->
       exists row, argsort volumes !! k = Some row /\
                   qha_volumes (phonopy_qha run) !! k = volumes !! row /\
                   qha_electronic_energies (phonopy_qha run) !! k = energies !! row).
Proof.
  intros Hrun.
  apply qha_extract_returned_inv in Hrun
    as (volumes & energies & sv & se & fe & en & cv & sc & w0 & objects & Hv & He & _ & Hsv
        & Hse & _ & _ & _ & Hqv & Hqe & _ & _ & _ & Hx & _).
  exists volumes, energies. rewrite Hqv, Hqe, Hx.
  destruct (take_along_argsort volumes) as (sorted & Hsorted & Hperm & Horder).
  assert (sorted = sv) as -> by congruence.
  repeat split; try done.
  intros k Hk.
  assert (length (argsort volumes) = length volumes) as Hlen
    by (rewrite argsort_perm; apply length_seq).
  destruct (lookup_lt_is_Some_2 (argsort volumes) k ltac:(lia)) as [row Hrow].
  exists row. split; [done|].
  unfold take_along in Hsv, Hse. apply mapM_Some in Hsv, Hse.
  destruct (Forall2_lookup_l _ _ _ _ _ Hsv Hrow) as (a & -> & ->).
  destruct (Forall2_lookup_l _ _ _ _ _ Hse Hrow) as (b & -> & ->). done.
Qed.

(** X16. For an energy-volume file in which every volume sorts before the
    ones listed after it (the volumes increase strictly, none is repeated)
    the sorting moves nothing: the volumes and energies are handed over as
    the file has them, and the force constants, kept in the order of their
    files, go position by position with the volumes of the file. *)
Theorem qha_extract_in_order (args : Args) (w w' : World) (run : Run)
    (volumes energies : list float) :
  qha_extract args w = (Returned run, w') ->
  transpose (np_loadtxt (ev args)) !! 0 = Some volumes ->
  transpose (np_loadtxt (ev args)) !! 1 = Some energies ->
  length energies = length volumes ->
  (forall i j, j < i -> i < length volumes ->
     sorts_before (nth j volumes 0%float) (nth i volumes 0%float) = true) ->
  argsort volumes = seq 0 (length volumes) /\
  qha_volumes (phonopy_qha run) = volumes /\
  qha_electronic_energies (phonopy_qha run) = energies /\
  interp_x (f_temperature run) = volumes /\
  interp_y (f_temperature run) =
    map (fun f => np_T (parse_FORCE_CONSTANTS f)) (flat_map sorted_glob (fc args)).
Proof.
  intros Hrun Hv He Hlen Horder.
  apply qha_extract_returned_inv in Hrun
    as (volumes' & energies' & sv & se & fe & en & cv & sc & w0 & objects & Hv' & He' & _
        & Hsv & Hse & _ & _ & _ & Hqv & Hqe & _ & _ & _ & Hx & Hy & _).
  assert (volumes' = volumes) as -> by congruence.
  assert (energies' = energies) as -> by congruence.
  pose proof (argsort_increasing volumes Horder) as Hindex.
  rewrite Hindex in Hsv, Hse.
  rewrite take_along_all in Hsv. rewrite <- Hlen, take_along_all in Hse.
  rewrite Hqv, Hqe, Hx, Hy. repeat split; congruence.
Qed.

(** X17. What a run that returns has printed and added to the store.  The
    readers of the input file and of the structure (lines 110 to 118) run
    on the store and the output as they were at the start: nothing is
    printed or built before them.  After them the script adds one array and
    one ForceConstants instance per force-constants file, changes no
    object that was there, and prints one line, the closing one; the
    warning of the loader, which it always gives a supercell, is not
    printed. *)
Theorem qha_extract_store_and_output (args : Args) (w w' : World) (run : Run) :
  qha_extract args w = (Returned run, w') ->
  exists fc_supercell w0,
    read_supercell_phonon (input_file args) w = (Returned fc_supercell, w0) /\
    stdout w' = stdout w0 ++ ["QHA Renormalized force constants written in file"] /\
    length (heap w') = length (heap w0) + 2 * length (flat_map sorted_glob (fc args)) /\
    forall b o, heap w0 !! b = Some o -> heap w' !! b = Some o.
Proof.
  intros Hrun.
  apply qha_extract_returned_inv in Hrun
    as (volumes & energies & sv & se & fe & en & cv & sc & w0 & objects & _ & _ & _ & _ & _
        & _ & _ & _ & _ & _ & _ & _ & _ & _ & _ & Hsc & Hlen & ->).
  exists sc, w0. simpl. split; [done|]. split; [done|].
  split; [rewrite length_app; lia|].
  intros b o Hb. rewrite lookup_app_l; [done|]. by eapply lookup_lt_Some.
Qed.




End QhaRun.

(** ** The further properties on concrete inputs *)

Section FurtherExamples.
#[local] Existing Instance Example.lib.
#[local] Existing Instance Example.rt.
#[local] Existing Instance ExampleRest.out.

Lemma get_phonon_prefers_force_constants_witness :
  get_phonon 0 true true None ExampleRest.world_with_fc =
    (Returned (set_force_constants
                 (phonon_with_nac ExampleRest.structure_fc true None)
                 (Example.tensor_of_matrix [[1; 2]; [3; 4]]%float)),
     {| heap := heap ExampleRest.world_with_fc; stdout := [nac_warning] |}).
Proof.
  apply (get_phonon_prefers_force_constants 0 2 1 ExampleRest.structure_fc
           (Some (identity 2)) None (Example.tensor_of_matrix [[1; 2]; [3; 4]]%float)
           true ExampleRest.world_with_fc); reflexivity.
Defined.

Lemma get_phonon_caches_force_constants_witness :
  exists phonon fc a s1 w1,
    get_phonon 0 false true None ExampleRest.world_fs = (Returned phonon, w1) /\
    heap w1 !! 0 = Some (StructureObj s1) /\
    structure_force_constants s1 = Some fc /\
    heap w1 !! fc = Some (ForceConstants a (Some (identity 2))) /\
    heap w1 !! a = Some (Array (get_force_constants phonon)) /\
    get_phonon 0 false true None w1 =
      (Returned (set_force_constants (phonon_with_nac s1 false None)
                   (get_force_constants phonon)), w1).
Proof.
  destruct (get_phonon_caches_force_constants 0 1 ExampleRest.structure_fs
              (tt : @Dataset Example.lib)
              (Some (identity 2)) None false ExampleRest.world_fs)
    as (phonon & fc & a & s1 & w1 & H1 & _ & H3 & H4 & _ & _ & _ & _ & H9 & H10 & H11);
    try reflexivity.
  exists phonon, fc, a, s1, w1. auto 10.
Defined.

Lemma get_phonon_exits_only_without_force_data_witness :
  true = true /\
  exists s, heap Example.world !! 0 = Some (StructureObj s) /\
            structure_force_constants s = None /\
            structure_force_sets s = None.
Proof.
  apply (get_phonon_exits_only_without_force_data 0 false true None Example.world
           {| heap := heap Example.world;
              stdout := ["No force sets/constants available!"] |}).
  reflexivity.
Defined.

Lemma arrangement_undone_witness :
  let E := [[Example.c 1; Example.c 2]; [Example.c 3; Example.c 4]] in
  exists arranged_ev,
    arrange_ev 1 2 E = Some arranged_ev /\
    length (ravel arranged_ev) = (1 * 2) * (1 * 2) /\
    T (1 * 2) <$> reshape arranged_ev (1 * 2) (1 * 2) = Some E.
Proof.
  apply (arrangement_undone 1 2
           [[Example.c 1; Example.c 2]; [Example.c 3; Example.c 4]]).
  - reflexivity.
  - repeat constructor.
Defined.

Lemma get_renormalized_force_constants_wrong_size_witness :
  get_renormalized_force_constants Example.frequencies [Rows [Item (Example.c 1)]] 0
    None true Example.world = (Raised ValueError, Example.world).
Proof.
  apply (get_renormalized_force_constants_wrong_size Example.frequencies
           [Rows [Item (Example.c 1)]] 0 Example.structure None true Example.world).
  - reflexivity.
  - constructor. simpl. lia.
Defined.

Lemma get_commensurate_points_example :
  get_commensurate_points 0 None Example.world =
    (Returned (commensurate_points
                 (get_primitive (bare_phonon Example.structure None))
                 (get_supercell (bare_phonon Example.structure None))), Example.world).
Proof.
  apply (get_commensurate_points_returned 0 Example.structure None Example.world).
  reflexivity.
Defined.

Lemma dos_phonon_with_force_constants_witness :
  dos_phonon 0 (Some 2) Example.world_fc =
    (Returned (set_force_constants (bare_phonon Example.structure (Some (identity 3)))
                 (Example.tensor_of_matrix [[1; 2]; [3; 4]]%float)), Example.world_fc).
Proof.
  apply (dos_phonon_with_force_constants 0 2 1 Example.structure (Some (identity 3))
           (Example.tensor_of_matrix [[1; 2]; [3; 4]]%float) Example.world_fc);
    reflexivity.
Defined.

Lemma obtain_phonopy_dos_total_witness :
  exists frequencies dos,
    get_total_DOS (set_total_DOS
        (set_mesh (bulk_of ExampleRest.structure_fc, identity 2) [40; 40; 40]%Z None None)
        None None true) = (frequencies, dos) /\
    obtain_phonopy_dos 0 [40; 40; 40]%Z (Some 2) None None (-3)
        ExampleRest.world_with_fc =
      (Returned [frequencies;
                 map (fun x => (x * (float_of_nat 4 / float_of_nat 2))%float) dos],
       ExampleRest.world_with_fc).
Proof.
  apply (obtain_phonopy_dos_total 0 ExampleRest.structure_fc [40; 40; 40]%Z (Some 2)
           None None (-3) ExampleRest.world_with_fc ExampleRest.world_with_fc
           (bulk_of ExampleRest.structure_fc, identity 2)).
  - reflexivity.
  - reflexivity.
  - lia.
  - simpl. lia.
Defined.

Lemma obtain_phonopy_dos_projected_witness :
  obtain_phonopy_dos 0 [40; 40; 40]%Z (Some 2) None None 1 ExampleRest.world_with_fc =
    (Returned [[0; 1]; [8; 10]]%float, ExampleRest.world_with_fc).
Proof.
  apply (obtain_phonopy_dos_projected 0 ExampleRest.structure_fc [40; 40; 40]%Z (Some 2)
           None None 1 ExampleRest.world_with_fc ExampleRest.world_with_fc
           (bulk_of ExampleRest.structure_fc, identity 2) [4; 5]%float).
  - reflexivity.
  - reflexivity.
  - lia.
  - reflexivity.
  - simpl. lia.
Defined.

Lemma obtain_phonopy_thermal_properties_returned_witness :
  obtain_phonopy_thermal_properties 0 300 [40; 40; 40]%Z (Some 2)
      ExampleRest.world_with_fc =
    (Returned ((-1) * (float_of_nat 4 / float_of_nat 2),
               2 * (float_of_nat 4 / float_of_nat 2),
               3 * (float_of_nat 4 / float_of_nat 2))%float,
     ExampleRest.world_with_fc).
Proof.
  apply (obtain_phonopy_thermal_properties_returned 0 ExampleRest.structure_fc 300
           [40; 40; 40]%Z (Some 2) ExampleRest.world_with_fc ExampleRest.world_with_fc
           (bulk_of ExampleRest.structure_fc, identity 2) 300 (-1) 2 3).
  - reflexivity.
  - reflexivity.
  - reflexivity.
  - simpl. lia.
Defined.

Lemma obtain_phonon_dispersion_bands_with_force_constants_witness :
  exists bands,
    obtain_phonon_dispersion_bands 0 [([0; 0; 0], [0.5; 0; 0.5])]%float (Some 2) true 2
        ExampleRest.world_with_fc =
      (Returned (get_band_structure
                   (set_band_structure
                      (set_force_constants
                         (bare_phonon ExampleRest.structure_fc (Some (identity 2)))
                         (Example.tensor_of_matrix [[1; 2]; [3; 4]]%float))
                      bands false)), ExampleRest.world_with_fc) /\
    Forall2 (fun range band =>
               length band = Z.to_nat (2 + 1) /\
               Forall (fun point => length point = length (fst range)) band)
            [([0; 0; 0], [0.5; 0; 0.5])]%float bands.
Proof.
  apply (obtain_phonon_dispersion_bands_with_force_constants 0 2 1
           ExampleRest.structure_fc (Some (identity 2))
           (Example.tensor_of_matrix [[1; 2]; [3; 4]]%float)
           [([0; 0; 0], [0.5; 0; 0.5])]%float true 2 ExampleRest.world_with_fc).
  - reflexivity.
  - reflexivity.
  - reflexivity.
  - repeat constructor.
Defined.

(** The three points of that band. *)
Lemma band_points_example :
  band_points [0; 0; 0]%float [0.5; 0; 0.5]%float 2 =
    Some [[0; 0; 0]; [0.25; 0; 0.25]; [0.5; 0; 0.5]]%float.
Proof. reflexivity. Qed.

(** A resolution of zero divides by zero without an exception. *)
Lemma band_points_resolution_zero :
  band_points [0; 0]%float [1; 0]%float 0 = Some [[nan; nan]]%float.
Proof. reflexivity. Qed.

Lemma equivalent_q_points_are_the_nonnegative_images_witness :
  let operations := get_reciprocal_operations (Symmetry_init (bulk_of Example.structure)) in
  let rows := [[0; 0.5; 0.25]; [0.5; 0; 0.25]]%float in
  (forall r, r ∈ rows ->
     all_nonnegative r = true /\
     exists op, op ∈ operations /\
                q_point_image_value [0.5; 0; 0.25]%float (identity 3) op = Some r) /\
  (forall op v, op ∈ operations ->
     q_point_image_value [0.5; 0; 0.25]%float (identity 3) op = Some v ->
     all_nonnegative v = true ->
     exists r, r ∈ rows /\ tuple_eqb r v = true).
Proof.
  apply (equivalent_q_points_are_the_nonnegative_images [0.5; 0; 0.25]%float 0
           Example.structure [[0; 0.5; 0.25]; [0.5; 0; 0.25]]%float
           Example.world Example.world).
  - reflexivity.
  - vm_compute. reflexivity.
Defined.

End FurtherExamples.

Section QhaFurtherExamples.
#[local] Existing Instance Example.lib.
#[local] Existing Instance Example.rt.

Lemma qha_volumes_sorted_with_energies_witness :
  exists run w',
    qha_extract (env := Example.env) Example.args Example.world = (Returned run, w') /\
    qha_volumes (phonopy_qha run) ≡ₚ [30; 10; 20]%float /\
    interp_x (f_temperature run) = qha_volumes (phonopy_qha run) /\
    forall k, k < 3 ->
      exists row, @argsort Example.lib Example.env [30; 10; 20]%float !! k = Some row /\
                  qha_volumes (phonopy_qha run) !! k = [30; 10; 20]%float !! row /\
                  qha_electronic_energies (phonopy_qha run) !! k
                    = [-1; -2; -3]%float !! row.
Proof.
  destruct (qha_extract (env := Example.env) Example.args Example.world) as [[run| |] w'] eqn:Hrun;
    try (vm_compute in Hrun; discriminate).
  exists run, w'. split; [reflexivity|].
  destruct (qha_volumes_sorted_with_energies (env := Example.env) Example.args Example.world
              w' run Hrun)
    as (volumes & energies & Hv & He & Hperm & Hx & _ & Hrows).
  vm_compute in Hv. injection Hv as <-. vm_compute in He. injection He as <-. auto.
Defined.

Lemma qha_extract_store_and_output_witness :
  exists run w',
    qha_extract (env := ExampleRest.env_in_order) Example.args Example.world
      = (Returned run, w') /\
    stdout w' = ["Reading input"; "QHA Renormalized force constants written in file"] /\
    length (heap w') = 1 + 2 * 3.
Proof.
  destruct (qha_extract (env := ExampleRest.env_in_order) Example.args Example.world)
    as [[run| |] w'] eqn:Hrun; try (vm_compute in Hrun; discriminate).
  exists run, w'. split; [reflexivity|].
  destruct (qha_extract_store_and_output (env := ExampleRest.env_in_order) Example.args
              Example.world w' run Hrun) as (sc & w0 & Hsc & Hout & Hlen & _).
  vm_compute in Hsc. injection Hsc as _ <-. auto.
Defined.

Lemma qha_extract_in_order_witness :
  exists run w',
    qha_extract (env := ExampleRest.env_in_order) Example.args Example.world
      = (Returned run, w') /\
    qha_volumes (phonopy_qha run) = [10; 20; 30]%float /\
    qha_electronic_energies (phonopy_qha run) = [-2; -3; -1]%float /\
    interp_x (f_temperature run) = [10; 20; 30]%float /\
    interp_y (f_temperature run) = map parse_FORCE_CONSTANTS ["fc-0"; "fc-10"; "fc-200"].
Proof.
  destruct (qha_extract (env := ExampleRest.env_in_order) Example.args Example.world)
    as [[run| |] w'] eqn:Hrun; try (vm_compute in Hrun; discriminate).
  exists run, w'. split; [reflexivity|].
  destruct (qha_extract_in_order (env := ExampleRest.env_in_order) Example.args Example.world
              w' run [10; 20; 30]%float [-2; -3; -1]%float Hrun)
    as (_ & Hv & He & Hx & Hy); try reflexivity.
  - intros i j Hji Hi. simpl in Hi.
    destruct i as [|[|[|i]]], j as [|[|[|j]]]; try lia; reflexivity.
  - auto.
Defined.



(** A table of a single row is not indexed by the sorting indices. *)
Lemma qha_extract_single_row_example :
  one_dimensional [[30; -1]]%float = true /\
  T_columns [[4.5; 4.25]; [5.5]; [6.5; 6.25]]%float [1; 2; 0] = None.
Proof. split; reflexivity. Qed.


End QhaFurtherExamples.

Section ModesExample.
#[local] Existing Instance ExampleRest.lib_modes.
#[local] Existing Instance ExampleRest.out_modes.

(** With the test, under numpy's default options: the matrix of the test
    is printed with precision 3 and suppression, the two frequencies with
    precision 3, and precision 3 is left behind. *)
Lemma obtain_eigenvectors_and_frequencies_printoptions_witness :
  obtain_eigenvectors_and_frequencies 0 [0; 0; 0]%float false true true
      ExampleRest.default_printoptions ExampleRest.world_modes =
    (Returned (Rows [Rows [Rows [Item (Complex 1.5 0)]; Rows [Item (Complex 2 0)]];
                     Rows [Rows [Item (Complex 0 0)]; Rows [Item (Complex 2 0)]]],
               [1.5; 2.5]%float,
               {| precision := 3; suppress := false |}),
     {| heap := heap ExampleRest.world_modes;
        stdout := ["Testing eigenvectors orthonormality";
                   "4 items, precision 3, suppress";
                   "Harmonic frequencies (THz):";
                   "2 items, precision 3"] |}).
Proof.
  rewrite (obtain_eigenvectors_and_frequencies_printoptions 0 ExampleRest.structure_fc
             [0; 0; 0]%float false true true ExampleRest.default_printoptions
             ExampleRest.world_modes ExampleRest.world_modes
             (bulk_of ExampleRest.structure_fc, identity 3)
             (Rows [Rows [Rows [Item (Complex 1.5 0)]; Rows [Item (Complex 2 0)]];
                    Rows [Rows [Item (Complex 0 0)]; Rows [Item (Complex 2 0)]]]));
    reflexivity.
Defined.

(** Without the test the options in force are used and left. *)
Lemma obtain_eigenvectors_and_frequencies_untested_example :
  obtain_eigenvectors_and_frequencies 0 [0; 0; 0]%float false false true
      ExampleRest.default_printoptions ExampleRest.world_modes =
    (Returned (Rows [Rows [Rows [Item (Complex 3 0)]; Rows [Item (Complex 4 0)]];
                     Rows [Rows [Item (Complex 0 0)]; Rows [Item (Complex 4 0)]]],
               [1.5; 2.5]%float,
               ExampleRest.default_printoptions),
     {| heap := heap ExampleRest.world_modes;
        stdout := ["Harmonic frequencies (THz):"; "2 items, precision 8"] |}).
Proof. reflexivity. Qed.

End ModesExample.
